(** * Luminous Ocean: local persistence and reconciliation engine

    A shallow embedding of the persistence module ([utils/db.ts]), of the
    shared type declarations ([types.ts]) and of the persistence logic of
    the top-level controller ([App.tsx], present in two revisions), with
    the properties of the persistence and reconciliation engine. *)

From Stdlib Require Import ZArith String List Lia Bool.
From Stdlib Require Import Floats.PrimFloat.
From stdpp Require Import base option list strings pretty gmap.

Local Open Scope string_scope.
Local Open Scope Z_scope.
Local Open Scope list_scope.

(** ** JavaScript values *)

(** A promise either resolves with a value or rejects. *)
Inductive outcome (A : Type) : Type :=
  | Resolved (a : A)
  | Rejected.
Arguments Resolved {A} a.
Arguments Rejected {A}.

(** Truthiness of a string: only the empty string is falsy. *)
Definition truthy (s : string) : bool :=
  match s with
  | EmptyString => false
  | String _ _ => true
  end.

(** [a || b] on strings. *)
Definition or_else (a b : string) : string :=
  if truthy a then a else b.

(** [v || b] where [v] may be [undefined]. *)
Definition or_else_undef (v : option string) (b : string) : string :=
  match v with
  | Some a => or_else a b
  | None => b
  end.

(** [s.startsWith(p)] *)
Fixpoint startsWith (p s : string) : bool :=
  match p, s with
  | EmptyString, _ => true
  | String a p', String b s' =>
      if Ascii.eqb a b then startsWith p' s' else false
  | String _ _, EmptyString => false
  end.

(** The line feed of a string literal's [\n]. *)
Definition newline : string := String (Ascii.ascii_of_nat 10) EmptyString.

(** An opaque binary payload; a [File] is a [Blob] with a name. *)
Definition Blob : Type := string.

Record File : Type := mkFile {
  file_name : string;
  file_blob : Blob
}.

(** ** types.ts *)

Definition Position : Type := (float * float * float)%type.

Module StarData.
Record t : Type := mk {
  id : Z;
  position : Position;
  images : list string;
  imageAssetIds : option (list string);
  text : option string;
  isActive : bool;
  viewCount : Z
}.
End StarData.

Module Song.
Record t : Type := mk {
  id : string;
  name : string;
  url : string;
  assetId : option string
}.
End Song.

(** ** The browser environment

    Everything the code takes from the platform: object URLs, random
    identifiers, network fetches, the clipboard, and which IndexedDB
    requests fail. Random sources are streams indexed by the number of
    draws made so far. [createObjectURL] is taken as a function of the
    payload; [fetchDataURL] stands for [fetch], [response.blob] and
    [FileReader.readAsDataURL] in sequence, and rejects when any of them
    does. Numbers that count (ids, view counts, the progression counter)
    are integers. *)

Inductive request : Type :=
  | ReqOpen
  | ReqPutAsset (id : string)
  | ReqGetAsset (id : string)
  | ReqDeleteAsset (id : string)
  | ReqPutState
  | ReqGetState.

Class Env : Type := {
  createObjectURL : Blob -> string;
  randomUUID : nat -> string;
  generateId : nat -> string;
  randomPosition : nat -> Position;
  fetchDataURL : string -> outcome string;
  clipboard_rejects : bool;
  idb_fails : request -> bool
}.

(** ** utils/db.ts *)

Module DB.

Record GameState : Type := mkGameState {
  stars : list StarData.t;
  playlist : list Song.t;
  playbackCount : Z
}.

(** The database [LuminousOceanDB]: the object stores [assets] and
    [state], and the number of identifiers drawn so far. *)
Record IDB : Type := mkIDB {
  assets : gmap string Blob;
  state : gmap string GameState;
  drawn : nat
}.

Definition empty : IDB := mkIDB ∅ ∅ 0.

(** An asynchronous computation on the database. A rejection keeps the
    writes made before it. *)
Definition Async (A : Type) : Type := IDB -> outcome A * IDB.

Definition ret {A : Type} (a : A) : Async A := fun db => (Resolved a, db).

Definition reject {A : Type} : Async A := fun db => (Rejected, db).

Definition bind {A B : Type} (m : Async A) (k : A -> Async B) : Async B :=
  fun db =>
    match m db with
    | (Resolved a, db') => k a db'
    | (Rejected, db') => (Rejected, db')
    end.

(** [Promise.all]: every computation runs; the result rejects if one of
    them rejected. *)
Fixpoint all {A : Type} (ms : list (Async A)) : Async (list A) :=
  match ms with
  | [] => ret []
  | m :: ms' =>
      fun db =>
        let '(r, db1) := m db in
        let '(rs, db2) := all ms' db1 in
        match r, rs with
        | Resolved a, Resolved l => (Resolved (a :: l), db2)
        | _, _ => (Rejected, db2)
        end
  end.

Definition request_ `{Env} (r : request) : Async unit :=
  fun db => (if idb_fails r then Rejected else Resolved tt, db).

Definition openDB `{Env} : Async unit := request_ ReqOpen.

Definition saveAsset `{Env} (blob : Blob) : Async string :=
  bind openDB (fun _ db =>
    let id := randomUUID (drawn db) in
    let db1 := mkIDB (assets db) (state db) (S (drawn db)) in
    if idb_fails (ReqPutAsset id) then (Rejected, db1)
    else (Resolved id, mkIDB (<[id := blob]> (assets db)) (state db) (S (drawn db)))).

Definition getAsset `{Env} (id : string) : Async (option Blob) :=
  bind openDB (fun _ =>
  bind (request_ (ReqGetAsset id)) (fun _ db =>
    (Resolved (assets db !! id), db))).

Definition saveGameState `{Env} (st : GameState) : Async unit :=
  bind openDB (fun _ =>
  bind (request_ ReqPutState) (fun _ db =>
    (Resolved tt, mkIDB (assets db) (<["current" := st]> (state db)) (drawn db)))).

Definition loadGameState `{Env} : Async (option GameState) :=
  bind openDB (fun _ =>
  bind (request_ ReqGetState) (fun _ db =>
    (Resolved (state db !! "current"), db))).

Definition deleteAsset `{Env} (id : string) : Async unit :=
  bind openDB (fun _ db =>
    (Resolved tt,
     if idb_fails (ReqDeleteAsset id) then db
     else mkIDB (delete id (assets db)) (state db) (drawn db))).

End DB.

(** ** data/initialData.ts

    The build-time seed. The shipped file declares all three constants
    empty; the export of a running application is meant to replace them. *)

Record Seed : Type := mkSeed {
  STATIC_STARS : list StarData.t;
  STATIC_PLAYLIST : list Song.t;
  INITIAL_PLAYBACK_COUNT : Z
}.

Definition shipped_seed : Seed := mkSeed [] [] 0.

(** ** App.tsx: state and the handlers both revisions share *)

Module App.

Record TempImage : Type := mkTempImage {
  url : string;
  file : option File;
  assetId : option string
}.

(** The [useState] cells of the component. *)
Record State : Type := mkState {
  stars : list StarData.t;
  playlist : list Song.t;
  currentSongIndex : Z;
  playbackCount : Z;
  isDataLoaded : bool;
  isUploadModalOpen : bool;
  editingStarId : option Z;
  tempImages : list TempImage;
  tempText : string;
  dragActive : bool
}.

(** The component state together with what it acts on: the database, the
    position in the [Math.random] stream, the [alert] messages shown so
    far, and the export text last written to the console or to the
    clipboard. *)
Record World : Type := mkWorld {
  app : State;
  idb : DB.IDB;
  rng : nat;
  alerts : list string;
  console : list Seed;
  clipboard : option Seed
}.

Definition with_app (w : World) (s : State) : World :=
  mkWorld s (idb w) (rng w) (alerts w) (console w) (clipboard w).

Definition with_idb (w : World) (db : DB.IDB) : World :=
  mkWorld (app w) db (rng w) (alerts w) (console w) (clipboard w).

Definition alert (msg : string) (w : World) : World :=
  mkWorld (app w) (idb w) (rng w) (alerts w ++ [msg])%list (console w) (clipboard w).

Definition setStars (l : list StarData.t) (s : State) : State :=
  mkState l (playlist s) (currentSongIndex s) (playbackCount s)
    (isDataLoaded s) (isUploadModalOpen s) (editingStarId s)
    (tempImages s) (tempText s) (dragActive s).

Definition setPlaylist (l : list Song.t) (s : State) : State :=
  mkState (stars s) l (currentSongIndex s) (playbackCount s)
    (isDataLoaded s) (isUploadModalOpen s) (editingStarId s)
    (tempImages s) (tempText s) (dragActive s).

Definition setCurrentSongIndex (i : Z) (s : State) : State :=
  mkState (stars s) (playlist s) i (playbackCount s)
    (isDataLoaded s) (isUploadModalOpen s) (editingStarId s)
    (tempImages s) (tempText s) (dragActive s).

Definition setPlaybackCount (n : Z) (s : State) : State :=
  mkState (stars s) (playlist s) (currentSongIndex s) n
    (isDataLoaded s) (isUploadModalOpen s) (editingStarId s)
    (tempImages s) (tempText s) (dragActive s).

Definition setIsDataLoaded (b : bool) (s : State) : State :=
  mkState (stars s) (playlist s) (currentSongIndex s) (playbackCount s)
    b (isUploadModalOpen s) (editingStarId s)
    (tempImages s) (tempText s) (dragActive s).

Definition setUploadModalOpen (b : bool) (s : State) : State :=
  mkState (stars s) (playlist s) (currentSongIndex s) (playbackCount s)
    (isDataLoaded s) b (editingStarId s)
    (tempImages s) (tempText s) (dragActive s).

Definition setEditingStarId (i : option Z) (s : State) : State :=
  mkState (stars s) (playlist s) (currentSongIndex s) (playbackCount s)
    (isDataLoaded s) (isUploadModalOpen s) i
    (tempImages s) (tempText s) (dragActive s).

Definition setTempImages (l : list TempImage) (s : State) : State :=
  mkState (stars s) (playlist s) (currentSongIndex s) (playbackCount s)
    (isDataLoaded s) (isUploadModalOpen s) (editingStarId s)
    l (tempText s) (dragActive s).

Definition setTempText (t : string) (s : State) : State :=
  mkState (stars s) (playlist s) (currentSongIndex s) (playbackCount s)
    (isDataLoaded s) (isUploadModalOpen s) (editingStarId s)
    (tempImages s) t (dragActive s).

Definition setDragActive (b : bool) (s : State) : State :=
  mkState (stars s) (playlist s) (currentSongIndex s) (playbackCount s)
    (isDataLoaded s) (isUploadModalOpen s) (editingStarId s)
    (tempImages s) (tempText s) b.

(** The fallback generator: twenty inactive stars with ids 0..19; star
    [i] takes its three random draws at positions [r + 3 i]. *)
Definition generateRandomStars `{Env} (r : nat) : list StarData.t :=
  map (fun i : nat =>
         StarData.mk (Z.of_nat i) (randomPosition (r + 3 * i)) [] None None
           false 0)
      (seq 0 20).

(** The initial values of the [useState] cells. *)
Definition initialState `{Env} (seed : Seed) (r : nat) : State :=
  mkState
    (if (0 <? length (STATIC_STARS seed))%nat then STATIC_STARS seed
     else generateRandomStars r)
    (STATIC_PLAYLIST seed) 0 (INITIAL_PLAYBACK_COUNT seed)
    false false None [] "" false.

Definition mount `{Env} (seed : Seed) (db : DB.IDB) (r : nat) : World :=
  mkWorld (initialState seed r) db
    (if (0 <? length (STATIC_STARS seed))%nat then r else (r + 60)%nat)
    [] [] None.

(** *** Startup restore: the parts of [init] *)

Definition blobUrl `{Env} (b : option Blob) : string :=
  match b with
  | Some blob => createObjectURL blob
  | None => ""
  end.

(** [images.map((original, i) => blobUrls[i] || original).filter(Boolean)] *)
Definition mixImages (blobUrls images : list string) : list string :=
  filter (fun u => truthy u = true)
    (imap (fun i original => or_else_undef (blobUrls !! i) original) images).

Definition with_images (s : StarData.t) (imgs : list string) : StarData.t :=
  StarData.mk (StarData.id s) (StarData.position s) imgs
    (StarData.imageAssetIds s) (StarData.text s) (StarData.isActive s)
    (StarData.viewCount s).

Definition restoreStar `{Env} (s : StarData.t) : DB.Async StarData.t :=
  match StarData.imageAssetIds s with
  | Some ids =>
      if (0 <? length ids)%nat then
        DB.bind (DB.all (map DB.getAsset ids)) (fun blobs =>
          let blobUrls := map blobUrl blobs in
          DB.ret (with_images s (mixImages blobUrls (StarData.images s))))
      else DB.ret (with_images s (StarData.images s))
  | None => DB.ret (with_images s (StarData.images s))
  end.

Definition with_url (s : Song.t) (u : string) : Song.t :=
  Song.mk (Song.id s) (Song.name s) u (Song.assetId s).

Definition restoreSong `{Env} (s : Song.t) : DB.Async Song.t :=
  match Song.assetId s with
  | Some id =>
      if truthy id then
        DB.bind (DB.getAsset id) (fun blob =>
          match blob with
          | Some b => DB.ret (with_url s (createObjectURL b))
          | None => DB.ret s
          end)
      else DB.ret s
  | None => DB.ret s
  end.

(** The branch of [init] taken when a saved state was loaded. *)
Definition restore `{Env} (saved : DB.GameState)
  : DB.Async (list StarData.t * list Song.t * Z) :=
  DB.bind (DB.all (map restoreStar (DB.stars saved))) (fun restoredStars =>
  DB.bind (DB.all (map restoreSong (DB.playlist saved))) (fun restoredPlaylist =>
  DB.ret (restoredStars,
          filter (fun s => truthy (Song.url s) = true) restoredPlaylist,
          DB.playbackCount saved))).

Definition applyRestored (r : list StarData.t * list Song.t * Z) (s : State)
  : State :=
  let '(st, pl, n) := r in
  setPlaybackCount n (setPlaylist pl (setStars st s)).

(** *** Persistence helper *)

(** [saveGame] is never awaited: its write happens, and its rejection is
    not observed by the caller. *)
Definition saveGame `{Env} (newStars : list StarData.t)
    (newPlaylist : list Song.t) (newPlaybackCount : Z) (w : World) : World :=
  with_idb w
    (snd (DB.saveGameState
            (DB.mkGameState newStars newPlaylist newPlaybackCount) (idb w))).

(** *** Derived progression stats *)

Definition maxPlaylistSize (playbackCount : Z) : Z :=
  let bonus := playbackCount / 10 in
  Z.min 10 (5 + bonus).

Definition isContinuousPlayUnlocked (playbackCount : Z) : bool :=
  playbackCount >=? 60.

(** *** Handlers *)

Definition playlist_full_msg (cap : Z) : string :=
  "Playlist full (Max " +:+ pretty cap +:+
  "). Keep listening to unlock more space!".

Definition handleMusicUpload `{Env} (files : list File) (w : World) : World :=
  match files with
  | [] => w
  | file :: _ =>
      let st := app w in
      if Z.of_nat (length (playlist st)) >=? maxPlaylistSize (playbackCount st)
      then alert (playlist_full_msg (maxPlaylistSize (playbackCount st))) w
      else
        match DB.saveAsset (file_blob file) (idb w) with
        | (Resolved assetId, db1) =>
            let newSong :=
              Song.mk (generateId (rng w)) (file_name file)
                (createObjectURL (file_blob file)) (Some assetId) in
            let newPlaylist := (playlist st ++ [newSong])%list in
            let st' :=
              setCurrentSongIndex (Z.of_nat (length newPlaylist) - 1)
                (setPlaylist newPlaylist st) in
            saveGame (stars st) newPlaylist (playbackCount st)
              (mkWorld st' db1 (S (rng w)) (alerts w) (console w) (clipboard w))
        | (Rejected, db1) => with_idb w db1
        end
  end.

(** [handleMusicUpload] takes two turns of the event loop. The first
    ends at [await DB.saveAsset(file)]. The second starts when that
    promise has resolved with [assetId]: it runs on the world of that
    later moment, but [stars], [playlist] and [playbackCount] are those
    of the render that created the handler, here [closure]. *)
Definition handleMusicUpload_await `{Env} (file : File) (w : World)
  : outcome string * World :=
  let (r, db1) := DB.saveAsset (file_blob file) (idb w) in
  (r, with_idb w db1).

Definition handleMusicUpload_resume `{Env} (closure : State) (file : File)
    (assetId : string) (w : World) : World :=
  let newSong :=
    Song.mk (generateId (rng w)) (file_name file)
      (createObjectURL (file_blob file)) (Some assetId) in
  let newPlaylist := (playlist closure ++ [newSong])%list in
  let st' :=
    setCurrentSongIndex (Z.of_nat (length newPlaylist) - 1)
      (setPlaylist newPlaylist (app w)) in
  saveGame (stars closure) newPlaylist (playbackCount closure)
    (mkWorld st' (idb w) (S (rng w)) (alerts w) (console w) (clipboard w)).

Definition handleSongEnd `{Env} (w : World) : World :=
  let st := app w in
  let newCount := playbackCount st + 1 in
  saveGame (stars st) (playlist st) newCount
    (with_app w (setPlaybackCount newCount st)).

Definition existingImages (star : StarData.t) : list TempImage :=
  imap (fun index u =>
          mkTempImage u None
            (match StarData.imageAssetIds star with
             | Some ids => ids !! index
             | None => None
             end))
       (StarData.images star).

Definition handleStarClick (id : Z) (w : World) : World :=
  let st := app w in
  match List.find (fun s => StarData.id s =? id) (stars st) with
  | Some star =>
      with_app w
        (setUploadModalOpen true
           (setTempText (or_else_undef (StarData.text star) "")
              (setTempImages (existingImages star)
                 (setEditingStarId (Some id) st))))
  | None => w
  end.

Definition viewed (id : Z) (star : StarData.t) : StarData.t :=
  if StarData.id star =? id then
    StarData.mk (StarData.id star) (StarData.position star)
      (StarData.images star) (StarData.imageAssetIds star)
      (StarData.text star) (StarData.isActive star)
      (StarData.viewCount star + 1)
  else star.

Definition handleStarView `{Env} (id : Z) (w : World) : World :=
  let st := app w in
  let newStars := map (viewed id) (stars st) in
  saveGame newStars (playlist st) (playbackCount st)
    (with_app w (setStars newStars st)).

Definition processImage `{Env} (img : TempImage)
  : DB.Async (string * option string) :=
  match file img with
  | Some f =>
      DB.bind (DB.saveAsset (file_blob f)) (fun id =>
        DB.ret (url img, Some id))
  | None => DB.ret (url img, assetId img)
  end.

Definition launched (editing : Z) (finalImageUrls finalAssetIds : list string)
    (txt : string) (star : StarData.t) : StarData.t :=
  if StarData.id star =? editing then
    StarData.mk (StarData.id star) (StarData.position star)
      finalImageUrls (Some finalAssetIds) (Some txt) true 0
  else star.

Definition launch_failed_msg : string :=
  "Error saving star data. Check console.".

Definition handleLaunchStar `{Env} (w : World) : World :=
  let st := app w in
  match editingStarId st with
  | None => w
  | Some editing =>
      match DB.all (map processImage (tempImages st)) (idb w) with
      | (Resolved processedImages, db1) =>
          let finalImageUrls := map fst processedImages in
          let finalAssetIds :=
            map (fun p => or_else_undef (snd p) "") processedImages in
          let newStars :=
            map (launched editing finalImageUrls finalAssetIds (tempText st))
                (stars st) in
          let st' :=
            setUploadModalOpen false
              (setEditingStarId None
                 (setTempText ""
                    (setTempImages [] (setStars newStars st)))) in
          saveGame newStars (playlist st) (playbackCount st)
            (with_app (with_idb w db1) st')
      | (Rejected, db1) => alert launch_failed_msg (with_idb w db1)
      end
  end.

Definition processFiles `{Env} (files : list File) (w : World) : World :=
  let st := app w in
  let remainingSlots := 4 - Z.of_nat (length (tempImages st)) in
  if remainingSlots <=? 0 then w
  else
    let count := Z.min (Z.of_nat (length files)) remainingSlots in
    let newTempImages :=
      map (fun f => mkTempImage (createObjectURL (file_blob f)) (Some f) None)
          (firstn (Z.to_nat count) files) in
    with_app w (setTempImages (tempImages st ++ newTempImages)%list st).

Definition handleImageSelect `{Env} (files : option (list File)) (w : World)
  : World :=
  match files with
  | Some fs => processFiles fs w
  | None => w
  end.

Definition handleDrop `{Env} (files : list File) (w : World) : World :=
  let w' := with_app w (setDragActive false (app w)) in
  match files with
  | _ :: _ => processFiles files w'
  | [] => w'
  end.

Definition removeTempImage (index : nat) (w : World) : World :=
  with_app w (setTempImages (delete index (tempImages (app w))) (app w)).

Definition handlePlaylistUpdate `{Env} (newPlaylist : list Song.t) (w : World)
  : World :=
  saveGame (stars (app w)) newPlaylist (playbackCount (app w))
    (with_app w (setPlaylist newPlaylist (app w))).

(** *** The requests of the presentation layer *)

Inductive Event : Type :=
  | MusicUpload (files : list File)
  | SongEnd
  | StarClick (id : Z)
  | StarView (id : Z)
  | LaunchStar
  | ImageSelect (files : option (list File))
  | Drop (files : list File)
  | RemoveTempImage (index : nat)
  | EditText (t : string)
  | CloseModal
  | PlaylistUpdate (newPlaylist : list Song.t)
  | SetCurrentIndex (i : Z)
  | ExportData.

(** One request handled to completion; [export] is the revision's
    [handleExportData]. *)
Definition step `{Env} (export : World -> World) (e : Event) (w : World)
  : World :=
  match e with
  | MusicUpload files => handleMusicUpload files w
  | SongEnd => handleSongEnd w
  | StarClick id => handleStarClick id w
  | StarView id => handleStarView id w
  | LaunchStar => handleLaunchStar w
  | ImageSelect files => handleImageSelect files w
  | Drop files => handleDrop files w
  | RemoveTempImage index => removeTempImage index w
  | EditText t => with_app w (setTempText t (app w))
  | CloseModal => with_app w (setUploadModalOpen false (app w))
  | PlaylistUpdate newPlaylist => handlePlaylistUpdate newPlaylist w
  | SetCurrentIndex i => with_app w (setCurrentSongIndex i (app w))
  | ExportData => export w
  end.

Definition run `{Env} (export : World -> World) (es : list Event) (w : World)
  : World :=
  fold_left (fun w e => step export e w) es w.

Definition without_ids (s : StarData.t) (imgs : list string) : StarData.t :=
  StarData.mk (StarData.id s) (StarData.position s) imgs None
    (StarData.text s) (StarData.isActive s) (StarData.viewCount s).

End App.

(** ** App.tsx, revision with the console export (src/unnamed/part_000) *)

Module Part000.
Import App.

Definition init `{Env} (seed : Seed) (w : World) : World :=
  let w' :=
    match DB.loadGameState (idb w) with
    | (Resolved (Some savedState), db1) =>
        match restore savedState db1 with
        | (Resolved r, db2) =>
            with_app (with_idb w db2) (applyRestored r (app w))
        | (Rejected, db2) => with_idb w db2
        end
    | (Resolved None, db1) =>
        if (0 <? length (STATIC_STARS seed))%nat then
          with_idb w
            (snd (DB.saveGameState
                    (DB.mkGameState (STATIC_STARS seed) (STATIC_PLAYLIST seed)
                       (INITIAL_PLAYBACK_COUNT seed)) db1))
        else with_idb w db1
    | (Rejected, db1) => with_idb w db1
    end in
  with_app w' (setIsDataLoaded true (app w')).

Definition export_msg : string :=
  "Data exported to Console (F12). Copy the JSON and paste it into 'data/initialData.ts'. "
  +:+ newline +:+ newline +:+
  "IMPORTANT: Move your actual image/music files to a 'public/assets' folder and ensure the filenames in the code match your files.".

Definition handleExportData (w : World) : World :=
  let st := app w in
  let cleanStars :=
    map (fun s =>
           without_ids s
             (map (fun img =>
                     if startsWith "blob:" img
                     then "/assets/REPLACE_WITH_YOUR_FILENAME.jpg"
                     else img)
                  (StarData.images s)))
        (stars st) in
  let cleanPlaylist :=
    map (fun s =>
           Song.mk (Song.id s) (Song.name s)
             (if startsWith "blob:" (Song.url s)
              then "/assets/" +:+ Song.name s
              else Song.url s)
             None)
        (playlist st) in
  let exportString := mkSeed cleanStars cleanPlaylist (playbackCount st) in
  alert export_msg
    (mkWorld (app w) (idb w) (rng w) (alerts w) (console w ++ [exportString])
       (clipboard w)).

Definition step `{Env} : Event -> World -> World := App.step handleExportData.

Definition run `{Env} : list Event -> World -> World := App.run handleExportData.

(** A session: mount, startup restore, then the requests in order. *)
Definition session `{Env} (seed : Seed) (db : DB.IDB) (r : nat)
    (es : list Event) : World :=
  run es (init seed (mount seed db r)).

End Part000.

(** ** App.tsx, revision with the inline export (src/unnamed/part_001) *)

Module Part001.
Import App.

Definition urlToBase64 `{Env} (u : string) : string :=
  if startsWith "data:" u then u
  else
    match fetchDataURL u with
    | Resolved dataUrl => dataUrl
    | Rejected => u
    end.

Definition init `{Env} (w : World) : World :=
  let w' :=
    match DB.loadGameState (idb w) with
    | (Resolved (Some savedState), db1) =>
        match restore savedState db1 with
        | (Resolved r, db2) =>
            with_app (with_idb w db2) (applyRestored r (app w))
        | (Rejected, db2) => with_idb w db2
        end
    | (Resolved None, db1) => with_idb w db1
    | (Rejected, db1) => with_idb w db1
    end in
  with_app w' (setIsDataLoaded true (app w')).

Definition cleanStar `{Env} (s : StarData.t) : StarData.t :=
  without_ids s (map urlToBase64 (StarData.images s)).

Definition cleanSong `{Env} (s : Song.t) : Song.t :=
  let b64Url :=
    if negb (startsWith "data:" (Song.url s)) then urlToBase64 (Song.url s)
    else Song.url s in
  Song.mk (Song.id s) (Song.name s) b64Url None.

(** The text the export builds, as the seed it declares. *)
Definition exportString `{Env} (st : State) : Seed :=
  mkSeed (map cleanStar (stars st)) (map cleanSong (playlist st))
    (playbackCount st).

Definition copied_msg : string :=
  "DATA COPIED! (Embedded Images/Audio)" +:+ newline +:+ newline +:+
  "1. Go to the chat." +:+ newline +:+
  "2. Paste (Ctrl+V) the code." +:+ newline +:+
  "3. I will save it to the file for you.".

Definition export_failed_msg : string :=
  "Export failed. See console for details.".

Definition handleExportData `{Env} (w : World) : World :=
  if clipboard_rejects then alert export_failed_msg w
  else
    alert copied_msg
      (mkWorld (app w) (idb w) (rng w) (alerts w) (console w)
         (Some (exportString (app w)))).

Definition step `{Env} : Event -> World -> World := App.step handleExportData.

Definition run `{Env} : list Event -> World -> World := App.run handleExportData.

Definition session `{Env} (seed : Seed) (db : DB.IDB) (r : nat)
    (es : list Event) : World :=
  run es (init (mount seed db r)).

End Part001.

(** * Notions used in the statements *)

(** The [state] object store holds nothing but the record [current]: true
    of the empty database and kept by every operation of the module. *)
Definition single_record (db : DB.IDB) : Prop :=
  forall k : string, k <> "current" -> DB.state db !! k = None.

(** Slot [i] of a restored star: the object URL of the asset stored under
    identifier [i] when there is one, the prior image reference
    otherwise. *)
Definition resolved_slot `{Env} (store : gmap string Blob) (ids : list string)
    (i : nat) (original : string) : string :=
  match ids !! i ≫= (fun id => store !! id) with
  | Some b => createObjectURL b
  | None => original
  end.

(** What the restore makes of one star and of one song when every read
    goes through: [restoreStar] and [restoreSong] with the reads replaced
    by lookups in the asset store. *)
Definition reconcileStar `{Env} (store : gmap string Blob) (s : StarData.t)
  : StarData.t :=
  App.with_images s
    (match StarData.imageAssetIds s with
     | Some (id0 :: ids') =>
         filter (fun u => truthy u = true)
           (imap (resolved_slot store (id0 :: ids')) (StarData.images s))
     | _ => StarData.images s
     end).

Definition reconcileSong `{Env} (store : gmap string Blob) (s : Song.t)
  : Song.t :=
  match Song.assetId s with
  | Some id =>
      if truthy id then
        match store !! id with
        | Some b => App.with_url s (createObjectURL b)
        | None => s
        end
      else s
  | None => s
  end.

(** The live model after a successful restore of [saved]. *)
Definition reconciled `{Env} (saved : DB.GameState) (db : DB.IDB)
    (st : App.State) : App.State :=
  App.setIsDataLoaded true
    (App.setPlaybackCount (DB.playbackCount saved)
       (App.setPlaylist
          (filter (fun s => truthy (Song.url s) = true)
             (map (reconcileSong (DB.assets db)) (DB.playlist saved)))
          (App.setStars (map (reconcileStar (DB.assets db)) (DB.stars saved))
             st))).

(** A star that has an identifier list has it as long as its image list;
    a star without one (the shape of the seed and of an export) is
    exempt. *)
Definition star_aligned (s : StarData.t) : Prop :=
  match StarData.imageAssetIds s with
  | Some ids => length ids = length (StarData.images s)
  | None => True
  end.

(** Aligned, and no image reference is empty. *)
Definition star_ok (s : StarData.t) : Prop :=
  star_aligned s /\ Forall (fun u => u <> "") (StarData.images s).

(** The document in the store, if there is one, has only such stars. *)
Definition stored_ok (db : DB.IDB) : Prop :=
  forall d : DB.GameState,
    DB.state db !! "current" = Some d -> Forall star_ok (DB.stars d).

(** The invariant behind alignment: the live stars, the pending images
    and the stored document. *)
Definition alignment_inv (w : App.World) : Prop :=
  Forall star_ok (App.stars (App.app w)) /\
  Forall (fun t => App.url t <> "") (App.tempImages (App.app w)) /\
  stored_ok (App.idb w).

(** The invariant behind the bound of four: no live star and no pending
    list holds more than four images. *)
Definition at_most_four (s : StarData.t) : Prop :=
  (length (StarData.images s) <= 4)%nat.

Definition four_inv (w : App.World) : Prop :=
  Forall at_most_four (App.stars (App.app w)) /\
  (length (App.tempImages (App.app w)) <= 4)%nat.

Definition stored_four (db : DB.IDB) : Prop :=
  forall d : DB.GameState,
    DB.state db !! "current" = Some d -> Forall at_most_four (DB.stars d).

(** The asset a saved song resolves to: the blob stored under its
    identifier, when it has a non-empty one. *)
Definition song_blob (store : gmap string Blob) (s : Song.t) : option Blob :=
  match Song.assetId s with
  | Some id => if truthy id then store !! id else None
  | None => None
  end.

(** The number of [SongEnd] requests in a sequence. *)
Definition completed_playbacks (es : list App.Event) : Z :=
  fold_right (fun e n => match e with App.SongEnd => n + 1 | _ => n end) 0 es.

(** * Example inputs *)

(** A browser in which nothing fails: object URLs are the payload behind
    the [blob:] scheme, fetching an object URL yields an inline encoding,
    and fetching anything else fails. *)
Definition demo_env : Env := {|
  createObjectURL b := "blob:" +:+ b;
  randomUUID n := "uuid-" +:+ pretty n;
  generateId n := "id" +:+ pretty n;
  randomPosition _ := (0%float, 0%float, 0%float);
  fetchDataURL u :=
    if startsWith "blob:" u then Resolved ("data:" +:+ u) else Rejected;
  clipboard_rejects := false;
  idb_fails _ := false
|}.

Definition demo_song (n : string) : Song.t :=
  Song.mk n n ("/assets/" +:+ n) None.

Definition seven_songs : list Song.t :=
  map demo_song ["a"; "b"; "c"; "d"; "e"; "f"; "g"].

Definition demo_file : File := mkFile "h.mp3" "bytes".

(** Counter 25 and a playlist of seven songs. *)
Definition full_world : App.World :=
  App.mkWorld
    (App.mkState [] seven_songs 0 25 true false None [] "" false)
    DB.empty 0 [] [] None.

Definition origin : Position := (0%float, 0%float, 0%float).

(** A saved document with three stars: one whose only slot is empty on
    both sides (identifier [X] is not stored, the prior reference is
    empty), one of the seed's shape (an image path, no identifier list),
    and one whose identifier resolves. *)
Definition loaded_doc : DB.GameState :=
  DB.mkGameState
    [ StarData.mk 0 origin [""] (Some ["X"]) None true 0;
      StarData.mk 1 origin ["/assets/my-photo.jpg"] None
        (Some "This is a permanent memory.") true 0;
      StarData.mk 2 origin ["blob:stale"] (Some ["uuid-0"]) (Some "hi") true 3 ]
    [] 0.

Definition loaded_db : DB.IDB :=
  DB.mkIDB {[ "uuid-0" := "photo" ]} {[ "current" := loaded_doc ]} 1.

Definition loaded_world : App.World :=
  @App.mount demo_env shipped_seed loaded_db 0.

(** The seed the comment of [data/initialData.ts] gives as an example. *)
Definition example_seed : Seed :=
  mkSeed
    [ StarData.mk 0 (5%float, 2%float, 5%float) ["/assets/my-photo.jpg"] None
        (Some "This is a permanent memory.") true 0 ]
    [ Song.mk "song-1" "My Favorite Song" "/assets/music/my-song.mp3" None ]
    0.

(** A live model with two object-URL images, one static path (which
    [demo_env] fails to fetch) and one image that is already inline. *)
Definition export_world : App.World :=
  App.mkWorld
    (App.mkState
       [ StarData.mk 0 origin ["blob:one"; "/assets/Y.jpg"; "blob:two"]
           (Some ["uuid-0"; ""; "uuid-1"]) (Some "hello") true 2;
         StarData.mk 1 origin ["data:image/png;base64,AAAA"] (Some ["uuid-2"])
           None true 0 ]
       [ Song.mk "id0" "tune.mp3" "blob:tune" (Some "uuid-3") ]
       0 3 true false None [] "" false)
    DB.empty 0 [] [] None.


(** A seed whose star has five images. *)
Definition five_seed : Seed :=
  mkSeed
    [ StarData.mk 0 origin
        ["/a/1.jpg"; "/a/2.jpg"; "/a/3.jpg"; "/a/4.jpg"; "/a/5.jpg"]
        None None true 0 ]
    [] 0.

Definition photo (n : string) : File := mkFile (n +:+ ".jpg") n.

(** The images and identifiers of the stars of the stored document. *)
Definition stored_lists (db : DB.IDB)
  : option (list (list string * option (list string))) :=
  (fun d => map (fun s => (StarData.images s, StarData.imageAssetIds s))
              (DB.stars d)) <$> DB.state db !! "current".

(** The browser of [demo_env] with the local store out of reach: every
    IndexedDB request fails. *)
Definition offline_env : Env := {|
  createObjectURL b := "blob:" +:+ b;
  randomUUID n := "uuid-" +:+ pretty n;
  generateId n := "id" +:+ pretty n;
  randomPosition _ := (0%float, 0%float, 0%float);
  fetchDataURL u :=
    if startsWith "blob:" u then Resolved ("data:" +:+ u) else Rejected;
  clipboard_rejects := false;
  idb_fails _ := true
|}.

(** A world in which star 1 is being edited with one stored image and
    one new photo pending. *)
Definition editing_world : App.World :=
  App.mkWorld
    (App.mkState
       [ StarData.mk 0 origin [] None None false 0;
         StarData.mk 1 origin ["blob:old"] (Some ["uuid-0"]) (Some "before") true 5 ]
       [] 0 0 true true (Some 1)
       [ App.mkTempImage "blob:old" None (Some "uuid-0");
         App.mkTempImage "blob:new" (Some (photo "new")) None ]
       "after" false)
    (DB.mkIDB {[ "uuid-0" := "old" ]} ∅ 1) 0 [] [] None.

(** Counter 25 and a playlist of six songs: one place is left. *)
Definition roomy_world : App.World :=
  App.mkWorld
    (App.mkState [] (map demo_song ["a"; "b"; "c"; "d"; "e"; "f"]) 0 25 true
       false None [] "" false)
    DB.empty 0 [] [] None.


(** * Properties *)

Lemma truthy_ne (s : string) : truthy s = true <-> s <> "".
Proof. destruct s; simpl; split; congruence. Qed.

(** ** Progression *)

(** C7. The continuous-playback unlock flag is exactly the predicate
    [counter >= 60]: it is false at 59 and true at 60. *)
Theorem isContinuousPlayUnlocked_threshold :
  (forall counter : Z,
      App.isContinuousPlayUnlocked counter = true <-> 60 <= counter) /\
  App.isContinuousPlayUnlocked 59 = false /\
  App.isContinuousPlayUnlocked 60 = true.
Proof.
  split; [|split; reflexivity].
  intros counter. unfold App.isContinuousPlayUnlocked.
  rewrite Z.geb_le. reflexivity.
Qed.

Lemma maxPlaylistSize_floor (counter q : Z) :
  10 * q <= counter < 10 * q + 10 ->
  App.maxPlaylistSize counter = Z.min 10 (5 + q).
Proof.
  intros Hq. unfold App.maxPlaylistSize.
  replace (counter / 10) with q; [reflexivity|].
  apply Z.div_unique with (r := counter - 10 * q); lia.
Qed.

(** C4. The capacity is min(10, 5 + floor(counter / 10)), which is 7 at
    counter 25; an append attempted with the playlist at or above capacity
    shows a message and changes nothing else: component state, database,
    random stream, console and clipboard are as before. *)
Theorem handleMusicUpload_quota `{Env} (w : App.World) (file : File)
    (files : list File) :
  Z.of_nat (length (App.playlist (App.app w)))
    >= App.maxPlaylistSize (App.playbackCount (App.app w)) ->
  (forall counter q : Z,
      10 * q <= counter < 10 * q + 10 ->
      App.maxPlaylistSize counter = Z.min 10 (5 + q)) /\
  App.maxPlaylistSize 25 = 7 /\
  App.handleMusicUpload (file :: files) w
  = App.alert
      (App.playlist_full_msg (App.maxPlaylistSize (App.playbackCount (App.app w))))
      w /\
  (let w' := App.handleMusicUpload (file :: files) w in
   App.app w' = App.app w /\ App.idb w' = App.idb w /\
   App.rng w' = App.rng w /\ App.console w' = App.console w /\
   App.clipboard w' = App.clipboard w /\
   App.alerts w'
   = App.alerts w ++
     [App.playlist_full_msg (App.maxPlaylistSize (App.playbackCount (App.app w)))]).
Proof.
  intros Hfull.
  assert (Hstep : App.handleMusicUpload (file :: files) w
    = App.alert
        (App.playlist_full_msg
           (App.maxPlaylistSize (App.playbackCount (App.app w)))) w).
  { unfold App.handleMusicUpload.
    destruct (Z.geb_spec (Z.of_nat (length (App.playlist (App.app w))))
                (App.maxPlaylistSize (App.playbackCount (App.app w))));
      [reflexivity | lia]. }
  split; [exact maxPlaylistSize_floor|].
  split; [reflexivity|].
  split; [exact Hstep|].
  cbv zeta. rewrite Hstep. repeat split.
Qed.

(** At counter 25 with seven songs, the eighth append is rejected and the
    playlist keeps its seven entries. *)
Lemma handleMusicUpload_quota_witness :
  App.maxPlaylistSize 25 = 7 /\
  length (App.playlist (App.app
            (@App.handleMusicUpload demo_env [demo_file] full_world))) = 7%nat.
Proof.
  destruct (@handleMusicUpload_quota demo_env full_world demo_file [])
    as (_ & Hcap & _ & Happ & _).
  - vm_compute. discriminate.
  - split; [exact Hcap|]. rewrite Happ. reflexivity.
Defined.

(** ** View counter *)

Lemma viewed_fields (id : Z) (s : StarData.t) :
  StarData.id (App.viewed id s) = StarData.id s /\
  StarData.position (App.viewed id s) = StarData.position s /\
  StarData.images (App.viewed id s) = StarData.images s /\
  StarData.imageAssetIds (App.viewed id s) = StarData.imageAssetIds s /\
  StarData.text (App.viewed id s) = StarData.text s /\
  StarData.isActive (App.viewed id s) = StarData.isActive s /\
  StarData.viewCount (App.viewed id s)
  = (if StarData.id s =? id then StarData.viewCount s + 1
     else StarData.viewCount s).
Proof.
  unfold App.viewed. destruct (StarData.id s =? id); repeat split.
Qed.

Lemma viewed_other (id : Z) (s : StarData.t) :
  StarData.id s <> id -> App.viewed id s = s.
Proof.
  intros Hne. unfold App.viewed.
  destruct (Z.eqb_spec (StarData.id s) id); [contradiction | reflexivity].
Qed.

Lemma map_viewed_absent (id : Z) (l : list StarData.t) :
  (forall s, In s l -> StarData.id s <> id) -> map (App.viewed id) l = l.
Proof.
  induction l as [|s l IH]; intros Hl; simpl; [reflexivity|].
  rewrite viewed_other by (apply Hl; left; reflexivity).
  rewrite IH; [reflexivity|]. intros s' Hs'. apply Hl. right. exact Hs'.
Qed.

(** C10. [handleStarView] adds one to the view counter of the star whose
    id is the given one and leaves every other star, every other field of
    that star, the playlist, the progression counter and the rest of the
    component state unchanged; with no star of that id the star list is
    unchanged. The handler is total, and the document it hands to the
    database is the new list with the unchanged playlist and counter. *)
Theorem handleStarView_frame `{Env} (id : Z) (w : App.World) :
  let w' := App.handleStarView id w in
  let old := App.stars (App.app w) in
  let new := App.stars (App.app w') in
  length new = length old /\
  (forall (i : nat) (s : StarData.t),
      nth_error old i = Some s ->
      exists s' : StarData.t,
        nth_error new i = Some s' /\
        StarData.id s' = StarData.id s /\
        StarData.position s' = StarData.position s /\
        StarData.images s' = StarData.images s /\
        StarData.imageAssetIds s' = StarData.imageAssetIds s /\
        StarData.text s' = StarData.text s /\
        StarData.isActive s' = StarData.isActive s /\
        StarData.viewCount s'
        = (if StarData.id s =? id then StarData.viewCount s + 1
           else StarData.viewCount s) /\
        (StarData.id s <> id -> s' = s)) /\
  App.app w' = App.setStars new (App.app w) /\
  App.playlist (App.app w') = App.playlist (App.app w) /\
  App.playbackCount (App.app w') = App.playbackCount (App.app w) /\
  App.alerts w' = App.alerts w /\
  App.idb w'
  = snd (DB.saveGameState
           (DB.mkGameState new (App.playlist (App.app w))
              (App.playbackCount (App.app w))) (App.idb w)) /\
  ((forall s, In s old -> StarData.id s <> id) -> new = old).
Proof.
  cbv zeta. unfold App.handleStarView, App.saveGame. simpl.
  split; [apply length_map|].
  split.
  { intros i s Hs. exists (App.viewed id s).
    split; [rewrite nth_error_map, Hs; reflexivity|].
    destruct (viewed_fields id s) as (? & ? & ? & ? & ? & ? & ?).
    repeat (split; [assumption|]). apply viewed_other. }
  repeat (split; [reflexivity|]).
  apply map_viewed_absent.
Qed.

(** ** Document store *)

Lemma single_record_empty : single_record DB.empty.
Proof. intros k _. apply lookup_empty. Qed.

Lemma saveGameState_single_record `{Env} (d : DB.GameState) (db : DB.IDB) :
  single_record db -> single_record (snd (DB.saveGameState d db)).
Proof.
  intros Hdb k Hk.
  unfold DB.saveGameState, DB.bind, DB.openDB, DB.request_.
  destruct (idb_fails ReqOpen); simpl; [apply Hdb, Hk|].
  destruct (idb_fails ReqPutState); simpl; [apply Hdb, Hk|].
  rewrite lookup_insert_ne by congruence. apply Hdb, Hk.
Qed.

Lemma saveAsset_state `{Env} (b : Blob) (db : DB.IDB) :
  DB.state (snd (DB.saveAsset b db)) = DB.state db.
Proof.
  unfold DB.saveAsset, DB.bind, DB.openDB, DB.request_.
  destruct (idb_fails ReqOpen); simpl; [reflexivity|].
  destruct (idb_fails (ReqPutAsset _)); reflexivity.
Qed.

Lemma deleteAsset_state `{Env} (id : string) (db : DB.IDB) :
  DB.state (snd (DB.deleteAsset id db)) = DB.state db.
Proof.
  unfold DB.deleteAsset, DB.bind, DB.openDB, DB.request_.
  destruct (idb_fails ReqOpen); simpl; [reflexivity|].
  destruct (idb_fails (ReqDeleteAsset _)); reflexivity.
Qed.

Lemma saveGameState_ok `{Env} (d : DB.GameState) (db : DB.IDB) :
  idb_fails ReqOpen = false ->
  idb_fails ReqPutState = false ->
  DB.saveGameState d db
  = (Resolved tt,
     DB.mkIDB (DB.assets db) (<["current" := d]> (DB.state db)) (DB.drawn db)).
Proof.
  intros Ho Hp. unfold DB.saveGameState, DB.bind, DB.openDB, DB.request_.
  rewrite Ho, Hp. reflexivity.
Qed.

Lemma loadGameState_ok `{Env} (db : DB.IDB) :
  idb_fails ReqOpen = false ->
  idb_fails ReqGetState = false ->
  DB.loadGameState db = (Resolved (DB.state db !! "current"), db).
Proof.
  intros Ho Hg. unfold DB.loadGameState, DB.bind, DB.openDB, DB.request_.
  rewrite Ho, Hg. reflexivity.
Qed.

(** C8. With the database reachable, saving the same document twice
    succeeds both times; [load] returns that document after the first
    save and after the second; the second save leaves the database as the
    first left it. The record is written whole under the fixed key
    [current], and a store that held no other key holds exactly that one
    record afterwards. *)
Theorem saveGameState_twice `{Env} (d : DB.GameState) (db : DB.IDB) :
  idb_fails ReqOpen = false ->
  idb_fails ReqPutState = false ->
  idb_fails ReqGetState = false ->
  single_record db ->
  let db1 := snd (DB.saveGameState d db) in
  let db2 := snd (DB.saveGameState d db1) in
  fst (DB.saveGameState d db) = Resolved tt /\
  fst (DB.saveGameState d db1) = Resolved tt /\
  fst (DB.loadGameState db1) = Resolved (Some d) /\
  fst (DB.loadGameState db2) = Resolved (Some d) /\
  snd (DB.loadGameState db1) = db1 /\
  db2 = db1 /\
  DB.state db1 = {[ "current" := d ]} /\
  size (DB.state db1) = 1%nat /\
  DB.assets db1 = DB.assets db.
Proof.
  intros Ho Hp Hg Hone. cbv zeta.
  rewrite !saveGameState_ok by assumption. simpl.
  rewrite !loadGameState_ok by assumption. simpl.
  rewrite insert_insert_eq, lookup_insert_eq.
  assert (Hmap : <["current" := d]> (DB.state db)
                 = ({[ "current" := d ]} : gmap string DB.GameState)).
  { apply map_eq. intros k. destruct (decide (k = "current")) as [->|Hk].
    - rewrite lookup_insert_eq, lookup_singleton_eq. reflexivity.
    - rewrite lookup_insert_ne, lookup_singleton_ne by congruence.
      apply Hone, Hk. }
  rewrite Hmap, map_size_singleton. repeat split.
Qed.

Lemma saveGameState_twice_witness :
  fst (@DB.loadGameState demo_env
         (snd (@DB.saveGameState demo_env loaded_doc
                 (snd (@DB.saveGameState demo_env loaded_doc DB.empty)))))
  = Resolved (Some loaded_doc).
Proof.
  destruct (@saveGameState_twice demo_env loaded_doc DB.empty)
    as (_ & _ & _ & Hload & _);
    [reflexivity | reflexivity | reflexivity | exact single_record_empty |].
  exact Hload.
Defined.

(** ** Startup restore *)

Lemma getAsset_ok `{Env} (id : string) (db : DB.IDB) :
  idb_fails ReqOpen = false ->
  idb_fails (ReqGetAsset id) = false ->
  DB.getAsset id db = (Resolved (DB.assets db !! id), db).
Proof.
  intros Ho Hg. unfold DB.getAsset, DB.bind, DB.openDB, DB.request_.
  rewrite Ho, Hg. reflexivity.
Qed.

(** [Promise.all] over computations that resolve without writing. *)
Lemma all_map_resolved {A B : Type} (g : A -> DB.Async B) (f : A -> B)
    (l : list A) (db : DB.IDB) :
  (forall x, In x l -> g x db = (Resolved (f x), db)) ->
  DB.all (map g l) db = (Resolved (map f l), db).
Proof.
  induction l as [|x l IH]; intros Hl; simpl; [reflexivity|].
  rewrite (Hl x) by (left; reflexivity).
  rewrite IH by (intros y Hy; apply Hl; right; exact Hy).
  reflexivity.
Qed.

Lemma or_else_blobUrl `{Env} (store : gmap string Blob) (ids : list string)
    (i : nat) (original : string) :
  (forall b, createObjectURL b <> "") ->
  or_else_undef (map App.blobUrl (map (fun id => store !! id) ids) !! i) original
  = resolved_slot store ids i original.
Proof.
  intros Hurl. unfold resolved_slot.
  change (map App.blobUrl (map (fun id => store !! id) ids))
    with (App.blobUrl <$> ((fun id => store !! id) <$> ids)).
  rewrite !list_lookup_fmap.
  destruct (ids !! i) as [id|]; simpl; [|reflexivity].
  destruct (store !! id) as [b|]; simpl; [|reflexivity].
  unfold or_else. destruct (truthy (createObjectURL b)) eqn:Ht; [reflexivity|].
  exfalso. apply (Hurl b). destruct (createObjectURL b); [reflexivity|discriminate].
Qed.

Lemma mixImages_slots `{Env} (store : gmap string Blob) (ids images : list string) :
  (forall b, createObjectURL b <> "") ->
  App.mixImages (map App.blobUrl (map (fun id => store !! id) ids)) images
  = filter (fun u => truthy u = true) (imap (resolved_slot store ids) images).
Proof.
  intros Hurl. unfold App.mixImages. f_equal.
  apply imap_ext. intros i original _. apply or_else_blobUrl, Hurl.
Qed.

Lemma filter_truthy_all (l : list string) :
  (forall u, u ∈ l -> u <> "") ->
  filter (fun u => truthy u = true) l = l.
Proof.
  induction l as [|u l IH]; intros Hl; [reflexivity|].
  rewrite filter_cons_True.
  - rewrite IH; [reflexivity|]. intros v Hv. apply Hl. right. exact Hv.
  - apply truthy_ne, Hl. left.
Qed.

(** The restore of one star when the reads go through. *)
Lemma restoreStar_ok `{Env} (s : StarData.t) (db : DB.IDB) :
  idb_fails ReqOpen = false ->
  (forall id, idb_fails (ReqGetAsset id) = false) ->
  (forall b, createObjectURL b <> "") ->
  App.restoreStar s db = (Resolved (reconcileStar (DB.assets db) s), db).
Proof.
  intros Ho Hg Hurl. unfold App.restoreStar, reconcileStar.
  destruct (StarData.imageAssetIds s) as [[|id0 ids']|]; try reflexivity.
  cbn [length Nat.ltb Nat.leb]. unfold DB.bind.
  rewrite (all_map_resolved DB.getAsset (fun id => DB.assets db !! id))
    by (intros id _; apply getAsset_ok; [exact Ho | apply Hg]).
  unfold DB.ret. rewrite mixImages_slots by exact Hurl. reflexivity.
Qed.

Lemma restoreSong_ok `{Env} (s : Song.t) (db : DB.IDB) :
  idb_fails ReqOpen = false ->
  (forall id, idb_fails (ReqGetAsset id) = false) ->
  App.restoreSong s db = (Resolved (reconcileSong (DB.assets db) s), db).
Proof.
  intros Ho Hg. unfold App.restoreSong, reconcileSong.
  destruct (Song.assetId s) as [id|]; [|reflexivity].
  destruct (truthy id); [|reflexivity].
  unfold DB.bind. rewrite getAsset_ok by (exact Ho || apply Hg).
  destruct (DB.assets db !! id); reflexivity.
Qed.

Lemma restore_ok `{Env} (saved : DB.GameState) (db : DB.IDB) :
  idb_fails ReqOpen = false ->
  (forall id, idb_fails (ReqGetAsset id) = false) ->
  (forall b, createObjectURL b <> "") ->
  App.restore saved db
  = (Resolved
       (map (reconcileStar (DB.assets db)) (DB.stars saved),
        filter (fun s => truthy (Song.url s) = true)
          (map (reconcileSong (DB.assets db)) (DB.playlist saved)),
        DB.playbackCount saved), db).
Proof.
  intros Ho Hg Hurl. unfold App.restore, DB.bind.
  rewrite (all_map_resolved App.restoreStar (reconcileStar (DB.assets db)))
    by (intros s _; apply restoreStar_ok; assumption).
  rewrite (all_map_resolved App.restoreSong (reconcileSong (DB.assets db)))
    by (intros s _; apply restoreSong_ok; assumption).
  reflexivity.
Qed.

(** Both revisions restore a loaded document the same way. *)
Lemma init_loaded_001 `{Env} (w : App.World) (saved : DB.GameState) :
  idb_fails ReqOpen = false ->
  idb_fails ReqGetState = false ->
  (forall id, idb_fails (ReqGetAsset id) = false) ->
  (forall b, createObjectURL b <> "") ->
  DB.state (App.idb w) !! "current" = Some saved ->
  Part001.init w
  = App.with_app w (reconciled saved (App.idb w) (App.app w)).
Proof.
  intros Ho Hl Hg Hurl Hsaved. unfold Part001.init.
  rewrite loadGameState_ok, Hsaved by assumption.
  rewrite restore_ok by assumption.
  destruct w; reflexivity.
Qed.

Lemma init_loaded_000 `{Env} (seed : Seed) (w : App.World)
    (saved : DB.GameState) :
  idb_fails ReqOpen = false ->
  idb_fails ReqGetState = false ->
  (forall id, idb_fails (ReqGetAsset id) = false) ->
  (forall b, createObjectURL b <> "") ->
  DB.state (App.idb w) !! "current" = Some saved ->
  Part000.init seed w
  = App.with_app w (reconciled saved (App.idb w) (App.app w)).
Proof.
  intros Ho Hl Hg Hurl Hsaved. unfold Part000.init.
  rewrite loadGameState_ok, Hsaved by assumption.
  rewrite restore_ok by assumption.
  destruct w; reflexivity.
Qed.

Lemma init_revisions_agree `{Env} (seed : Seed) (w : App.World)
    (saved : DB.GameState) :
  idb_fails ReqOpen = false ->
  idb_fails ReqGetState = false ->
  (forall id, idb_fails (ReqGetAsset id) = false) ->
  (forall b, createObjectURL b <> "") ->
  DB.state (App.idb w) !! "current" = Some saved ->
  Part000.init seed w = Part001.init w.
Proof.
  intros Ho Hl Hg Hurl Hsaved.
  rewrite (init_loaded_000 seed w saved), (init_loaded_001 w saved)
    by assumption.
  reflexivity.
Qed.

Lemma filter_truthy_ne (l : list string) :
  filter (fun u => truthy u = true) l = filter (fun u => u <> "") l.
Proof. apply list_filter_iff. intros u. apply truthy_ne. Qed.

Lemma reconcileStar_frame `{Env} (store : gmap string Blob) (s : StarData.t) :
  StarData.id (reconcileStar store s) = StarData.id s /\
  StarData.position (reconcileStar store s) = StarData.position s /\
  StarData.imageAssetIds (reconcileStar store s) = StarData.imageAssetIds s /\
  StarData.text (reconcileStar store s) = StarData.text s /\
  StarData.isActive (reconcileStar store s) = StarData.isActive s /\
  StarData.viewCount (reconcileStar store s) = StarData.viewCount s.
Proof. repeat split. Qed.

(** The image list of a restored star, slot by slot. *)
Lemma reconcileStar_slots `{Env} (store : gmap string Blob) (s : StarData.t) :
  match StarData.imageAssetIds s with
  | Some (id0 :: rest) =>
      let slot := resolved_slot store (id0 :: rest) in
      let restored := StarData.images (reconcileStar store s) in
      restored = filter (fun u => u <> "") (imap slot (StarData.images s)) /\
      (length restored <= length (StarData.images s))%nat /\
      (forall u, u ∈ restored ->
         u <> "" /\
         exists i original,
           StarData.images s !! i = Some original /\ u = slot i original) /\
      ((forall i original,
           StarData.images s !! i = Some original -> slot i original <> "") ->
       restored = imap slot (StarData.images s) /\
       length restored = length (StarData.images s) /\
       (length (StarData.images s) = length (id0 :: rest) ->
        length restored = length (id0 :: rest)))
  | _ => StarData.images (reconcileStar store s) = StarData.images s
  end.
Proof.
  unfold reconcileStar.
  destruct (StarData.imageAssetIds s) as [[|id0 rest]|]; try reflexivity.
  cbv zeta. cbn [StarData.images App.with_images].
  rewrite filter_truthy_ne.
  set (slot := resolved_slot store (id0 :: rest)).
  split; [reflexivity|]. split.
  { etransitivity; [apply length_filter|]. rewrite length_imap. reflexivity. }
  split.
  { intros u Hu. apply list_elem_of_filter in Hu as [Hne Hin].
    split; [exact Hne|].
    apply elem_of_lookup_imap_1 in Hin as (i & original & -> & Hi).
    exists i, original. split; [exact Hi | reflexivity]. }
  intros Hfull.
  assert (Hall : filter (fun u => u <> "") (imap slot (StarData.images s))
                 = imap slot (StarData.images s)).
  { rewrite <- filter_truthy_ne. apply filter_truthy_all.
    intros u Hin.
    apply elem_of_lookup_imap_1 in Hin as (i & original & -> & Hi).
    apply (Hfull i original Hi). }
  rewrite Hall, length_imap. repeat split. intros Hk. exact Hk.
Qed.

(** C1, as stated, fails. Restoring [loaded_doc], the star with one
    asset identifier ends with no image (its one slot is empty on both
    sides and is dropped), and the star without identifiers keeps its
    one image: the length of the restored image list is not the number of
    asset identifiers. *)
Lemma init_length_counterexample :
  map (fun s => (length (default [] (StarData.imageAssetIds s)),
                 length (StarData.images s)))
      (App.stars (App.app (@Part001.init demo_env loaded_world)))
  = [(1%nat, 0%nat); (0%nat, 1%nat); (1%nat, 1%nat)] /\
  map (fun s => (length (default [] (StarData.imageAssetIds s)),
                 length (StarData.images s)))
      (App.stars (App.app (@Part000.init demo_env shipped_seed loaded_world)))
  = [(1%nat, 0%nat); (0%nat, 1%nat); (1%nat, 1%nat)].
Proof. split; vm_compute; reflexivity. Qed.

(** C1, amended. When the saved document loads and the asset reads go
    through, the startup restore yields one star per saved star, equal to
    it in every field but the images. For a star with at least one asset
    identifier, slot [i] of its image list is the object URL of the asset
    stored under identifier [i] and, where there is no such asset, the
    prior image reference [i]; the restored list is these slots in order
    without the empty ones. It is never longer than the prior list, holds
    no empty entry, and when no slot is empty it is the full list of
    slots, whose length is the number of identifiers whenever the prior
    list had that length. A star without identifiers keeps its images. *)
Theorem init_restores_slots `{Env} (w : App.World) (saved : DB.GameState)
    (n : nat) (s : StarData.t) :
  idb_fails ReqOpen = false ->
  idb_fails ReqGetState = false ->
  (forall id, idb_fails (ReqGetAsset id) = false) ->
  (forall b, createObjectURL b <> "") ->
  DB.state (App.idb w) !! "current" = Some saved ->
  DB.stars saved !! n = Some s ->
  let live := App.stars (App.app (Part001.init w)) in
  length live = length (DB.stars saved) /\
  exists s' : StarData.t,
    live !! n = Some s' /\
    StarData.id s' = StarData.id s /\
    StarData.position s' = StarData.position s /\
    StarData.imageAssetIds s' = StarData.imageAssetIds s /\
    StarData.text s' = StarData.text s /\
    StarData.isActive s' = StarData.isActive s /\
    StarData.viewCount s' = StarData.viewCount s /\
    match StarData.imageAssetIds s with
    | Some (id0 :: rest) =>
        let slot := resolved_slot (DB.assets (App.idb w)) (id0 :: rest) in
        let restored := StarData.images s' in
        restored = filter (fun u => u <> "") (imap slot (StarData.images s)) /\
        (length restored <= length (StarData.images s))%nat /\
        (forall u, u ∈ restored ->
           u <> "" /\
           exists i original,
             StarData.images s !! i = Some original /\ u = slot i original) /\
        ((forall i original,
             StarData.images s !! i = Some original -> slot i original <> "") ->
         restored = imap slot (StarData.images s) /\
         length restored = length (StarData.images s) /\
         (length (StarData.images s) = length (id0 :: rest) ->
          length restored = length (id0 :: rest)))
    | _ => StarData.images s' = StarData.images s
    end.
Proof.
  intros Ho Hl Hg Hurl Hsaved Hs. cbv zeta.
  rewrite (init_loaded_001 w saved) by assumption.
  cbn [App.app App.with_app reconciled App.stars App.setIsDataLoaded
       App.setPlaybackCount App.setPlaylist App.setStars].
  split; [apply length_map|].
  exists (reconcileStar (DB.assets (App.idb w)) s).
  split.
  { change (map (reconcileStar (DB.assets (App.idb w))) (DB.stars saved))
      with (reconcileStar (DB.assets (App.idb w)) <$> DB.stars saved).
    rewrite list_lookup_fmap, Hs. reflexivity. }
  destruct (reconcileStar_frame (DB.assets (App.idb w)) s)
    as (? & ? & ? & ? & ? & ?).
  repeat (split; [assumption|]).
  apply (reconcileStar_slots (DB.assets (App.idb w)) s).
Qed.

(** In [loaded_doc] the third star's identifier resolves: its stale
    reference is replaced by the object URL of the stored asset. *)
Lemma init_restores_slots_witness :
  exists s' : StarData.t,
    App.stars (App.app (@Part001.init demo_env loaded_world)) !! 2%nat = Some s' /\
    StarData.images s' = ["blob:photo"].
Proof.
  destruct (@init_restores_slots demo_env loaded_world loaded_doc 2%nat
              (StarData.mk 2 origin ["blob:stale"] (Some ["uuid-0"])
                 (Some "hi") true 3))
    as (_ & s' & Hs' & _ & _ & _ & _ & _ & _ & Himgs & _).
  - reflexivity.
  - reflexivity.
  - intros id. reflexivity.
  - intros b. simpl. discriminate.
  - vm_compute. reflexivity.
  - reflexivity.
  - exists s'. split; [exact Hs'|]. rewrite Himgs. vm_compute. reflexivity.
Defined.

(** ** First run *)

Lemma length_pos_ne {A : Type} (l : list A) :
  l <> [] -> (0 <? length l)%nat = true.
Proof. destruct l; [congruence | reflexivity]. Qed.

(** The live model a mount starts from, for a seed with an entity. *)
Lemma mount_seed `{Env} (seed : Seed) (db : DB.IDB) (r : nat) :
  STATIC_STARS seed <> [] ->
  App.mount seed db r
  = App.mkWorld
      (App.mkState (STATIC_STARS seed) (STATIC_PLAYLIST seed) 0
         (INITIAL_PLAYBACK_COUNT seed) false false None [] "" false)
      db r [] [] None.
Proof.
  intros Hne. unfold App.mount, App.initialState.
  rewrite length_pos_ne by exact Hne. reflexivity.
Qed.

(** The other revision has no first-run branch: with no saved document
    its [init] leaves the database as it found it. *)
Lemma init_001_first_run `{Env} (w : App.World) :
  DB.state (App.idb w) !! "current" = None ->
  App.idb (Part001.init w) = App.idb w /\
  App.app (Part001.init w) = App.setIsDataLoaded true (App.app w).
Proof.
  intros Hnone. unfold Part001.init, DB.loadGameState, DB.bind, DB.openDB,
    DB.request_.
  destruct (idb_fails ReqOpen); [destruct w; split; reflexivity|].
  destruct (idb_fails ReqGetState); [destruct w; split; reflexivity|].
  rewrite Hnone. destruct w; split; reflexivity.
Qed.

Lemma init_000_first_run_app `{Env} (seed : Seed) (w : App.World) :
  DB.state (App.idb w) !! "current" = None ->
  App.app (Part000.init seed w) = App.setIsDataLoaded true (App.app w).
Proof.
  intros Hnone. unfold Part000.init, DB.loadGameState, DB.bind, DB.openDB,
    DB.request_.
  destruct (idb_fails ReqOpen); [destruct w; reflexivity|].
  destruct (idb_fails ReqGetState); [destruct w; reflexivity|].
  rewrite Hnone.
  destruct (0 <? length (STATIC_STARS seed))%nat; destruct w; reflexivity.
Qed.

(** C3, as stated, fails on the revision with the inline export: its
    [init] has no first-run branch. With a seed of one entity, an empty
    database and no failing request, the store holds no document after
    startup. *)
Lemma init_first_run_counterexample :
  STATIC_STARS example_seed <> [] /\
  (let w := @Part001.init demo_env (@App.mount demo_env example_seed DB.empty 0) in
   App.isDataLoaded (App.app w) = true /\
   DB.state (App.idb w) !! "current" = None /\
   fst (@DB.loadGameState demo_env (App.idb w)) = Resolved None).
Proof.
  split; [discriminate|]. repeat split; vm_compute; reflexivity.
Qed.

(** C3, amended. On startup, when the database answers, holds no saved
    document, and the seed has at least one entity: the revision with
    the first-run branch writes the seed (its stars, playlist and
    counter) as the document [current], and a load then returns it; the
    revision without that branch leaves the database as it found it. In
    both the live model is the seed itself and the loading flag is
    set. *)
Theorem init_first_run `{Env} (seed : Seed) (db : DB.IDB) (r : nat) :
  idb_fails ReqOpen = false ->
  idb_fails ReqGetState = false ->
  idb_fails ReqPutState = false ->
  DB.state db !! "current" = None ->
  STATIC_STARS seed <> [] ->
  let w0 := Part000.init seed (App.mount seed db r) in
  let w1 := Part001.init (App.mount seed db r) in
  let document :=
    DB.mkGameState (STATIC_STARS seed) (STATIC_PLAYLIST seed)
      (INITIAL_PLAYBACK_COUNT seed) in
  (DB.state (App.idb w0) !! "current" = Some document /\
   fst (DB.loadGameState (App.idb w0)) = Resolved (Some document) /\
   DB.assets (App.idb w0) = DB.assets db /\
   App.stars (App.app w0) = STATIC_STARS seed /\
   App.playlist (App.app w0) = STATIC_PLAYLIST seed /\
   App.playbackCount (App.app w0) = INITIAL_PLAYBACK_COUNT seed /\
   App.isDataLoaded (App.app w0) = true) /\
  (App.idb w1 = db /\
   App.stars (App.app w1) = STATIC_STARS seed /\
   App.playlist (App.app w1) = STATIC_PLAYLIST seed /\
   App.playbackCount (App.app w1) = INITIAL_PLAYBACK_COUNT seed /\
   App.isDataLoaded (App.app w1) = true).
Proof.
  intros Ho Hg Hp Hnone Hne. cbv zeta.
  rewrite mount_seed by exact Hne. split.
  - unfold Part000.init.
    cbn [App.idb]. rewrite loadGameState_ok, Hnone by assumption.
    rewrite length_pos_ne by exact Hne.
    rewrite saveGameState_ok by assumption.
    cbn [snd App.idb App.app App.with_idb App.with_app DB.state DB.assets
         App.stars App.playlist App.playbackCount App.isDataLoaded
         App.setIsDataLoaded].
    rewrite loadGameState_ok by assumption.
    cbn [fst DB.state]. rewrite lookup_insert_eq. repeat split.
  - unfold Part001.init.
    cbn [App.idb]. rewrite loadGameState_ok, Hnone by assumption.
    repeat split.
Qed.

Lemma init_first_run_witness :
  DB.state (App.idb (@Part000.init demo_env example_seed
                       (@App.mount demo_env example_seed DB.empty 0)))
    !! "current"
  = Some (DB.mkGameState (STATIC_STARS example_seed)
            (STATIC_PLAYLIST example_seed) 0) /\
  App.idb (@Part001.init demo_env
             (@App.mount demo_env example_seed DB.empty 0)) = DB.empty.
Proof.
  destruct (@init_first_run demo_env example_seed DB.empty 0%nat)
    as ((Hdoc & _) & (Hdb & _));
    [reflexivity | reflexivity | reflexivity | reflexivity | discriminate |].
  split; [exact Hdoc | exact Hdb].
Defined.

(** ** Export *)

Lemma urlToBase64_cases `{Env} (u : string) :
  Part001.urlToBase64 u
  = if startsWith "data:" u then u
    else match fetchDataURL u with
         | Resolved dataUrl => dataUrl
         | Rejected => u
         end.
Proof. reflexivity. Qed.

Lemma cleanSong_url `{Env} (s : Song.t) :
  Song.url (Part001.cleanSong s) = Part001.urlToBase64 (Song.url s).
Proof.
  unfold Part001.cleanSong, Part001.urlToBase64. cbn [Song.url].
  destruct (startsWith "data:" (Song.url s)); reflexivity.
Qed.

(** What the export keeps of the stars and of the playlist, whatever the
    fetches do. *)
Lemma exportString_frame `{Env} (st : App.State) :
  let out := Part001.exportString st in
  length (STATIC_STARS out) = length (App.stars st) /\
  map StarData.text (STATIC_STARS out) = map StarData.text (App.stars st) /\
  map StarData.isActive (STATIC_STARS out)
  = map StarData.isActive (App.stars st) /\
  map StarData.id (STATIC_STARS out) = map StarData.id (App.stars st) /\
  map StarData.position (STATIC_STARS out)
  = map StarData.position (App.stars st) /\
  map StarData.viewCount (STATIC_STARS out)
  = map StarData.viewCount (App.stars st) /\
  map (fun s => length (StarData.images s)) (STATIC_STARS out)
  = map (fun s => length (StarData.images s)) (App.stars st) /\
  map Song.id (STATIC_PLAYLIST out) = map Song.id (App.playlist st) /\
  map Song.name (STATIC_PLAYLIST out) = map Song.name (App.playlist st) /\
  INITIAL_PLAYBACK_COUNT out = App.playbackCount st.
Proof.
  cbv zeta. unfold Part001.exportString. cbn [STATIC_STARS STATIC_PLAYLIST
    INITIAL_PLAYBACK_COUNT].
  rewrite length_map, !map_map.
  repeat split.
  apply map_ext. intros s. cbn. apply length_map.
Qed.

(** C5, as stated, fails. With the shipped seed, which has no entity, the
    live model is the fallback scene, and the export made right after
    startup declares twenty entities where the seed has none. *)
Lemma export_roundtrip_counterexample :
  length (STATIC_STARS shipped_seed) = 0%nat /\
  (exists out : Seed,
      App.clipboard
        (@Part001.handleExportData demo_env
           (@Part001.init demo_env (@App.mount demo_env shipped_seed DB.empty 0)))
      = Some out /\
      length (STATIC_STARS out) = 20%nat) /\
  (exists out : Seed,
      App.console
        (Part000.handleExportData
           (@Part000.init demo_env shipped_seed
              (@App.mount demo_env shipped_seed DB.empty 0)))
      = [out] /\
      length (STATIC_STARS out) = 20%nat).
Proof.
  split; [reflexivity|].
  split; eexists; (split; [vm_compute; reflexivity | reflexivity]).
Qed.

(** C5, amended. For a seed with at least one entity and no saved
    document, the export made right after startup declares the seed's
    visible content: as many entities, with the same text, activation
    flag, id, position, view count and number of images each, the same
    songs by id and name, and the same counter. *)
Theorem export_roundtrip `{Env} (seed : Seed) (db : DB.IDB) (r : nat) :
  STATIC_STARS seed <> [] ->
  DB.state db !! "current" = None ->
  clipboard_rejects = false ->
  let w := Part001.handleExportData (Part001.init (App.mount seed db r)) in
  exists out : Seed,
    App.clipboard w = Some out /\
    length (STATIC_STARS out) = length (STATIC_STARS seed) /\
    map StarData.text (STATIC_STARS out) = map StarData.text (STATIC_STARS seed) /\
    map StarData.isActive (STATIC_STARS out)
    = map StarData.isActive (STATIC_STARS seed) /\
    map StarData.id (STATIC_STARS out) = map StarData.id (STATIC_STARS seed) /\
    map StarData.position (STATIC_STARS out)
    = map StarData.position (STATIC_STARS seed) /\
    map StarData.viewCount (STATIC_STARS out)
    = map StarData.viewCount (STATIC_STARS seed) /\
    map (fun s => length (StarData.images s)) (STATIC_STARS out)
    = map (fun s => length (StarData.images s)) (STATIC_STARS seed) /\
    map Song.id (STATIC_PLAYLIST out) = map Song.id (STATIC_PLAYLIST seed) /\
    map Song.name (STATIC_PLAYLIST out) = map Song.name (STATIC_PLAYLIST seed) /\
    INITIAL_PLAYBACK_COUNT out = INITIAL_PLAYBACK_COUNT seed.
Proof.
  intros Hne Hnone Hclip. cbv zeta.
  destruct (init_001_first_run (App.mount seed db r)) as [_ Happ];
    [rewrite mount_seed by exact Hne; exact Hnone|].
  unfold Part001.handleExportData. rewrite Hclip. cbn [App.clipboard App.alert].
  rewrite Happ, mount_seed by exact Hne.
  eexists. split; [reflexivity|].
  apply (exportString_frame
           (App.setIsDataLoaded true
              (App.mkState (STATIC_STARS seed) (STATIC_PLAYLIST seed) 0
                 (INITIAL_PLAYBACK_COUNT seed) false false None [] "" false))).
Qed.

Lemma export_roundtrip_witness :
  exists out : Seed,
    App.clipboard
      (@Part001.handleExportData demo_env
         (@Part001.init demo_env (@App.mount demo_env example_seed DB.empty 0)))
    = Some out /\
    map StarData.text (STATIC_STARS out) = [Some "This is a permanent memory."].
Proof.
  destruct (@export_roundtrip demo_env example_seed DB.empty 0%nat)
    as (out & Hout & _ & Htext & _).
  - discriminate.
  - reflexivity.
  - reflexivity.
  - exists out. split; [exact Hout | exact Htext].
Defined.

Lemma cleanStar_images `{Env} (s : StarData.t) (i : nat) :
  StarData.images (Part001.cleanStar s) !! i
  = Part001.urlToBase64 <$> StarData.images s !! i.
Proof.
  unfold Part001.cleanStar. cbn [StarData.images App.without_ids].
  change (map Part001.urlToBase64 (StarData.images s))
    with (Part001.urlToBase64 <$> StarData.images s).
  apply list_lookup_fmap.
Qed.

(** C6. Whatever fetches fail, the export goes through to the clipboard:
    it declares one entry per star and per song, in order; every image
    and every song reference is converted on its own, to itself when it
    is already inline, to the inline encoding when its fetch succeeds,
    and to the original reference when its fetch fails; no entry carries
    an asset identifier. The component state and the database are left
    as they were. *)
Theorem handleExportData_isolates_failures `{Env} (w : App.World) :
  clipboard_rejects = false ->
  let w' := Part001.handleExportData w in
  let inline (u : string) : string :=
    if startsWith "data:" u then u
    else match fetchDataURL u with
         | Resolved dataUrl => dataUrl
         | Rejected => u
         end in
  exists out : Seed,
    App.clipboard w' = Some out /\
    App.alerts w' = App.alerts w ++ [Part001.copied_msg] /\
    App.app w' = App.app w /\
    App.idb w' = App.idb w /\
    length (STATIC_STARS out) = length (App.stars (App.app w)) /\
    length (STATIC_PLAYLIST out) = length (App.playlist (App.app w)) /\
    INITIAL_PLAYBACK_COUNT out = App.playbackCount (App.app w) /\
    (forall (n : nat) (s : StarData.t),
        App.stars (App.app w) !! n = Some s ->
        exists s' : StarData.t,
          STATIC_STARS out !! n = Some s' /\
          StarData.imageAssetIds s' = None /\
          length (StarData.images s') = length (StarData.images s) /\
          (forall i : nat,
              StarData.images s' !! i = inline <$> StarData.images s !! i) /\
          StarData.id s' = StarData.id s /\
          StarData.text s' = StarData.text s /\
          StarData.isActive s' = StarData.isActive s) /\
    (forall (n : nat) (s : Song.t),
        App.playlist (App.app w) !! n = Some s ->
        exists s' : Song.t,
          STATIC_PLAYLIST out !! n = Some s' /\
          Song.assetId s' = None /\
          Song.url s' = inline (Song.url s) /\
          Song.id s' = Song.id s /\
          Song.name s' = Song.name s).
Proof.
  intros Hclip. cbv zeta. unfold Part001.handleExportData. rewrite Hclip.
  exists (Part001.exportString (App.app w)).
  cbn [App.clipboard App.alert App.alerts App.app App.idb].
  unfold Part001.exportString.
  cbn [STATIC_STARS STATIC_PLAYLIST INITIAL_PLAYBACK_COUNT].
  rewrite !length_map.
  repeat (split; [reflexivity|]).
  split.
  - intros n s Hs. exists (Part001.cleanStar s).
    split.
    { change (map Part001.cleanStar (App.stars (App.app w)))
        with (Part001.cleanStar <$> App.stars (App.app w)).
      rewrite list_lookup_fmap, Hs. reflexivity. }
    split; [reflexivity|].
    split; [apply length_map|].
    split; [intros i; apply cleanStar_images|].
    repeat split.
  - intros n s Hs. exists (Part001.cleanSong s).
    split.
    { change (map Part001.cleanSong (App.playlist (App.app w)))
        with (Part001.cleanSong <$> App.playlist (App.app w)).
      rewrite list_lookup_fmap, Hs. reflexivity. }
    split; [reflexivity|].
    split; [apply cleanSong_url|].
    split; reflexivity.
Qed.

(** In [export_world] the static path fails to fetch and stays as it is,
    between two object URLs that are converted. *)
Lemma handleExportData_isolates_failures_witness :
  exists out : Seed,
    App.clipboard (@Part001.handleExportData demo_env export_world) = Some out /\
    map StarData.images (STATIC_STARS out)
    = [ ["data:blob:one"; "/assets/Y.jpg"; "data:blob:two"];
        ["data:image/png;base64,AAAA"] ] /\
    map StarData.imageAssetIds (STATIC_STARS out) = [None; None].
Proof.
  destruct (@handleExportData_isolates_failures demo_env export_world)
    as (out & Hout & _); [reflexivity|].
  exists out. split; [exact Hout|].
  vm_compute in Hout. injection Hout as <-. split; reflexivity.
Defined.

(** ** What the asynchronous steps can and cannot change *)

Lemma all_state {A : Type} (ms : list (DB.Async A)) (db : DB.IDB) :
  (forall m, In m ms -> forall db0, DB.state (snd (m db0)) = DB.state db0) ->
  DB.state (snd (DB.all ms db)) = DB.state db.
Proof.
  revert db. induction ms as [|m ms IH]; intros db Hms; [reflexivity|].
  simpl. pose proof (Hms m (or_introl eq_refl) db) as Hm.
  destruct (m db) as [r db1]. simpl in Hm.
  specialize (IH db1 (fun m' Hm' => Hms m' (or_intror Hm'))).
  destruct (DB.all ms db1) as [rs db2]. simpl in IH.
  destruct r, rs; simpl; congruence.
Qed.

(** What [Promise.all] resolves with, element by element. *)
Lemma all_map_Forall2 {A B : Type} (g : A -> DB.Async B) (R : A -> B -> Prop)
    (l : list A) :
  (forall x y db db', g x db = (Resolved y, db') -> R x y) ->
  forall (l' : list B) (db db' : DB.IDB),
    DB.all (map g l) db = (Resolved l', db') -> Forall2 R l l'.
Proof.
  intros Hg. induction l as [|x l IH]; intros l' db db' Hall; simpl in Hall.
  - injection Hall as <- _. constructor.
  - destruct (g x db) as [r db1] eqn:Hx.
    destruct (DB.all (map g l) db1) as [rs db2] eqn:Hrest.
    destruct r as [y|]; [|discriminate].
    destruct rs as [ys|]; [|discriminate].
    injection Hall as <- _. constructor.
    + eapply Hg, Hx.
    + eapply IH, Hrest.
Qed.

Lemma getAsset_state `{Env} (id : string) (db : DB.IDB) :
  DB.state (snd (DB.getAsset id db)) = DB.state db.
Proof.
  unfold DB.getAsset, DB.bind, DB.openDB, DB.request_.
  destruct (idb_fails ReqOpen); simpl; [reflexivity|].
  destruct (idb_fails (ReqGetAsset id)); reflexivity.
Qed.

Lemma processImage_state `{Env} (img : App.TempImage) (db : DB.IDB) :
  DB.state (snd (App.processImage img db)) = DB.state db.
Proof.
  unfold App.processImage. destruct (App.file img) as [f|]; [|reflexivity].
  unfold DB.bind. pose proof (saveAsset_state (file_blob f) db) as Hs.
  destruct (DB.saveAsset (file_blob f) db) as [[id|] db1]; exact Hs.
Qed.

Lemma processImages_state `{Env} (imgs : list App.TempImage) (db : DB.IDB) :
  DB.state (snd (DB.all (map App.processImage imgs) db)) = DB.state db.
Proof.
  apply all_state. intros m Hm db0.
  apply in_map_iff in Hm as (img & <- & _). apply processImage_state.
Qed.

Lemma processImage_url `{Env} (img : App.TempImage) (p : string * option string)
    (db db' : DB.IDB) :
  App.processImage img db = (Resolved p, db') -> fst p = App.url img.
Proof.
  unfold App.processImage. destruct (App.file img) as [f|].
  - unfold DB.bind. destruct (DB.saveAsset (file_blob f) db) as [[id|] db1];
      [|discriminate].
    unfold DB.ret. intros [= <- _]. reflexivity.
  - unfold DB.ret. intros [= <- _]. reflexivity.
Qed.

Lemma processImages_urls `{Env} (imgs : list App.TempImage)
    (ps : list (string * option string)) (db db' : DB.IDB) :
  DB.all (map App.processImage imgs) db = (Resolved ps, db') ->
  map fst ps = map App.url imgs.
Proof.
  intros Hall.
  apply (all_map_Forall2 App.processImage (fun img p => fst p = App.url img))
    in Hall; [|intros x y d d'; apply processImage_url].
  induction Hall as [|img p imgs ps Hp _ IH]; [reflexivity|].
  simpl. rewrite Hp, IH. reflexivity.
Qed.

(** The document in the store after a [saveGame]: the one just handed
    over, or the one that was there. *)
Lemma saveGame_stored `{Env} (st : list StarData.t) (pl : list Song.t) (n : Z)
    (w : App.World) (d : DB.GameState) :
  DB.state (App.idb (App.saveGame st pl n w)) !! "current" = Some d ->
  d = DB.mkGameState st pl n \/ DB.state (App.idb w) !! "current" = Some d.
Proof.
  unfold App.saveGame, DB.saveGameState, DB.bind, DB.openDB, DB.request_.
  cbn [App.idb App.with_idb].
  destruct (idb_fails ReqOpen); cbn; [right; assumption|].
  destruct (idb_fails ReqPutState); cbn; [right; assumption|].
  rewrite lookup_insert_eq. intros [= <-]. left. reflexivity.
Qed.

Lemma saveGame_app `{Env} (st : list StarData.t) (pl : list Song.t) (n : Z)
    (w : App.World) :
  App.app (App.saveGame st pl n w) = App.app w.
Proof. reflexivity. Qed.

(** ** The restore, whatever the reads do *)

Lemma restoreStar_result `{Env} (s s' : StarData.t) (db db' : DB.IDB) :
  App.restoreStar s db = (Resolved s', db') ->
  exists imgs : list string,
    s' = App.with_images s imgs /\
    (imgs = StarData.images s \/
     exists blobUrls, imgs = App.mixImages blobUrls (StarData.images s)).
Proof.
  unfold App.restoreStar.
  destruct (StarData.imageAssetIds s) as [ids|].
  - destruct (0 <? length ids)%nat.
    + unfold DB.bind.
      destruct (DB.all (map DB.getAsset ids) db) as [[blobs|] db1];
        [|discriminate].
      unfold DB.ret. intros [= <- _]. eexists. split; [reflexivity|].
      right. eexists. reflexivity.
    + unfold DB.ret. intros [= <- _]. eexists. split; [reflexivity|].
      left. reflexivity.
  - unfold DB.ret. intros [= <- _]. eexists. split; [reflexivity|].
    left. reflexivity.
Qed.

Lemma restoreStar_state `{Env} (s : StarData.t) (db : DB.IDB) :
  DB.state (snd (App.restoreStar s db)) = DB.state db.
Proof.
  unfold App.restoreStar.
  destruct (StarData.imageAssetIds s) as [ids|]; [|reflexivity].
  destruct (0 <? length ids)%nat; [|reflexivity].
  unfold DB.bind.
  pose proof (all_state (map DB.getAsset ids) db) as Hall.
  destruct (DB.all (map DB.getAsset ids) db) as [[blobs|] db1]; simpl in *;
    apply Hall; intros m Hm db0;
    apply in_map_iff in Hm as (id & <- & _); apply getAsset_state.
Qed.

Lemma restoreSong_state `{Env} (s : Song.t) (db : DB.IDB) :
  DB.state (snd (App.restoreSong s db)) = DB.state db.
Proof.
  unfold App.restoreSong.
  destruct (Song.assetId s) as [id|]; [|reflexivity].
  destruct (truthy id); [|reflexivity].
  unfold DB.bind. pose proof (getAsset_state id db) as Hg.
  destruct (DB.getAsset id db) as [[[b|]|] db1]; exact Hg.
Qed.

Lemma restore_state `{Env} (saved : DB.GameState) (db : DB.IDB) :
  DB.state (snd (App.restore saved db)) = DB.state db.
Proof.
  unfold App.restore, DB.bind.
  pose proof (all_state (map App.restoreStar (DB.stars saved)) db) as H1.
  destruct (DB.all (map App.restoreStar (DB.stars saved)) db) as [[st|] db1];
    simpl in H1.
  - pose proof (all_state (map App.restoreSong (DB.playlist saved)) db1) as H2.
    destruct (DB.all (map App.restoreSong (DB.playlist saved)) db1)
      as [[pl|] db2]; simpl in *.
    + rewrite H2, H1; [reflexivity| |];
        intros m Hm db0; apply in_map_iff in Hm as (x & <- & _);
        [apply restoreStar_state | apply restoreSong_state].
    + rewrite H2, H1; [reflexivity| |];
        intros m Hm db0; apply in_map_iff in Hm as (x & <- & _);
        [apply restoreStar_state | apply restoreSong_state].
  - simpl. apply H1. intros m Hm db0.
    apply in_map_iff in Hm as (x & <- & _). apply restoreStar_state.
Qed.

Lemma restore_stars `{Env} (R : StarData.t -> StarData.t -> Prop)
    (saved : DB.GameState) (db db' : DB.IDB)
    (st : list StarData.t) (pl : list Song.t) (n : Z) :
  (forall s s' d d', App.restoreStar s d = (Resolved s', d') -> R s s') ->
  App.restore saved db = (Resolved (st, pl, n), db') ->
  Forall2 R (DB.stars saved) st.
Proof.
  intros HR. unfold App.restore, DB.bind.
  destruct (DB.all (map App.restoreStar (DB.stars saved)) db)
    as [[st0|] db1] eqn:Hst; [|discriminate].
  destruct (DB.all (map App.restoreSong (DB.playlist saved)) db1)
    as [[pl0|] db2]; [|discriminate].
  unfold DB.ret. intros [= <- _ _ _].
  eapply all_map_Forall2; [exact HR | exact Hst].
Qed.

Lemma loadGameState_inv `{Env} (db db' : DB.IDB) (r : option DB.GameState) :
  DB.loadGameState db = (Resolved r, db') ->
  db' = db /\ r = DB.state db !! "current".
Proof.
  unfold DB.loadGameState, DB.bind, DB.openDB, DB.request_.
  destruct (idb_fails ReqOpen); [discriminate|].
  destruct (idb_fails ReqGetState); [discriminate|].
  intros [= <- <-]. split; reflexivity.
Qed.

Lemma loadGameState_snd `{Env} (db : DB.IDB) :
  snd (DB.loadGameState db) = db.
Proof.
  unfold DB.loadGameState, DB.bind, DB.openDB, DB.request_.
  destruct (idb_fails ReqOpen); [reflexivity|].
  destruct (idb_fails ReqGetState); reflexivity.
Qed.

(** Mixing handles into a list without empty references drops nothing. *)
Lemma mixImages_nonempty (blobUrls images : list string) :
  Forall (fun u => u <> "") images ->
  length (App.mixImages blobUrls images) = length images /\
  Forall (fun u => u <> "") (App.mixImages blobUrls images).
Proof.
  intros Himgs. unfold App.mixImages.
  assert (Hall : forall u,
             u ∈ imap (fun i original => or_else_undef (blobUrls !! i) original)
                   images -> u <> "").
  { intros u Hu. apply elem_of_lookup_imap_1 in Hu as (i & original & -> & Hi).
    assert (Ho : original <> "").
    { rewrite Forall_forall in Himgs. apply Himgs.
      eapply list_elem_of_lookup_2, Hi. }
    unfold or_else_undef, or_else.
    destruct (blobUrls !! i) as [a|]; [|exact Ho].
    destruct (truthy a) eqn:Ha; [apply truthy_ne, Ha | exact Ho]. }
  rewrite filter_truthy_all by exact Hall.
  split; [apply length_imap|].
  apply Forall_forall. intros u Hu. apply Hall, Hu.
Qed.

Lemma mixImages_length (blobUrls images : list string) :
  (length (App.mixImages blobUrls images) <= length images)%nat.
Proof.
  unfold App.mixImages. etransitivity; [apply length_filter|].
  rewrite length_imap. reflexivity.
Qed.

Lemma restoreStar_star_ok `{Env} (s s' : StarData.t) (db db' : DB.IDB) :
  App.restoreStar s db = (Resolved s', db') -> star_ok s -> star_ok s'.
Proof.
  intros Hr [Hal Hne].
  apply restoreStar_result in Hr as (imgs & -> & [-> | [bu ->]]).
  - split; assumption.
  - destruct (mixImages_nonempty bu (StarData.images s) Hne) as [Hlen Hall].
    split; [|exact Hall].
    unfold star_aligned in *. cbn [StarData.imageAssetIds StarData.images
      App.with_images]. rewrite Hlen. exact Hal.
Qed.

Lemma restoreStar_at_most_four `{Env} (s s' : StarData.t) (db db' : DB.IDB) :
  App.restoreStar s db = (Resolved s', db') ->
  at_most_four s -> at_most_four s'.
Proof.
  intros Hr Hs.
  apply restoreStar_result in Hr as (imgs & -> & [-> | [bu ->]]).
  - exact Hs.
  - unfold at_most_four in *. cbn [StarData.images App.with_images].
    pose proof (mixImages_length bu (StarData.images s)). lia.
Qed.

Lemma Forall2_Forall_transfer {A : Type} (P : A -> Prop) (R : A -> A -> Prop)
    (l l' : list A) :
  (forall x y, R x y -> P x -> P y) ->
  Forall2 R l l' -> Forall P l -> Forall P l'.
Proof.
  intros HR H2. induction H2 as [|x y l l' Hxy _ IH]; intros Hl.
  - constructor.
  - inversion Hl; subst. constructor; [eapply HR; eassumption | auto].
Qed.

(** ** Alignment of the two lists of a star *)

Lemma stored_ok_state (db db' : DB.IDB) :
  DB.state db' = DB.state db -> stored_ok db -> stored_ok db'.
Proof. intros Hst Hdb d Hd. apply Hdb. rewrite <- Hst. exact Hd. Qed.

Lemma saveGame_stored_ok `{Env} (st : list StarData.t) (pl : list Song.t)
    (n : Z) (w : App.World) :
  Forall star_ok st -> stored_ok (App.idb w) ->
  stored_ok (App.idb (App.saveGame st pl n w)).
Proof.
  intros Hst Hdb d Hd. apply saveGame_stored in Hd as [-> | Hd].
  - exact Hst.
  - apply Hdb, Hd.
Qed.

Lemma viewed_star_ok (id : Z) (s : StarData.t) :
  star_ok s -> star_ok (App.viewed id s).
Proof.
  unfold star_ok, star_aligned.
  destruct (viewed_fields id s) as (_ & _ & -> & -> & _). auto.
Qed.

Lemma existingImages_url (star : StarData.t) (t : App.TempImage) :
  t ∈ App.existingImages star -> App.url t ∈ StarData.images star.
Proof.
  unfold App.existingImages. intros Ht.
  apply elem_of_lookup_imap_1 in Ht as (i & u & -> & Hi).
  cbn. eapply list_elem_of_lookup_2, Hi.
Qed.

Lemma launched_star_ok (editing : Z) (ps : list (string * option string))
    (txt : string) (s : StarData.t) :
  Forall (fun u => u <> "") (map fst ps) ->
  star_ok s ->
  star_ok (App.launched editing (map fst ps)
             (map (fun p => or_else_undef (snd p) "") ps) txt s).
Proof.
  intros Hps Hs. unfold App.launched.
  destruct (StarData.id s =? editing); [|exact Hs].
  split; [|exact Hps].
  unfold star_aligned. cbn. rewrite !length_map. reflexivity.
Qed.

Lemma find_In {A : Type} (f : A -> bool) (l : list A) (x : A) :
  List.find f l = Some x -> x ∈ l.
Proof.
  intros Hf. apply find_some in Hf as [Hin _]. apply list_elem_of_In, Hin.
Qed.

Lemma handleMusicUpload_alignment `{Env} (files : list File) (w : App.World) :
  alignment_inv w -> alignment_inv (App.handleMusicUpload files w).
Proof.
  intros (Hst & Htmp & Hdb). unfold App.handleMusicUpload.
  destruct files as [|file files]; [repeat split; assumption|].
  destruct (_ >=? _); [repeat split; assumption|].
  pose proof (saveAsset_state (file_blob file) (App.idb w)) as Hstate.
  destruct (DB.saveAsset (file_blob file) (App.idb w)) as [[assetId|] db1];
    simpl in Hstate.
  - split; [exact Hst|]. split; [exact Htmp|].
    apply saveGame_stored_ok; [exact Hst|].
    eapply stored_ok_state; [|exact Hdb]. exact Hstate.
  - split; [exact Hst|]. split; [exact Htmp|].
    eapply stored_ok_state; [|exact Hdb]. exact Hstate.
Qed.

Lemma handleLaunchStar_alignment `{Env} (w : App.World) :
  alignment_inv w -> alignment_inv (App.handleLaunchStar w).
Proof.
  intros (Hst & Htmp & Hdb). unfold App.handleLaunchStar.
  destruct (App.editingStarId (App.app w)) as [editing|];
    [|repeat split; assumption].
  pose proof (processImages_state (App.tempImages (App.app w)) (App.idb w))
    as Hstate.
  destruct (DB.all (map App.processImage (App.tempImages (App.app w)))
              (App.idb w)) as [[ps|] db1] eqn:Hall; simpl in Hstate.
  - assert (Hurls : Forall (fun u => u <> "") (map fst ps)).
    { rewrite (processImages_urls _ _ _ _ Hall).
      apply Forall_forall. intros u Hu.
      apply list_elem_of_In, in_map_iff in Hu as (t & <- & Ht).
      rewrite Forall_forall in Htmp. apply Htmp, list_elem_of_In, Ht. }
    assert (Hnew : Forall star_ok
              (map (App.launched editing (map fst ps)
                      (map (fun p => or_else_undef (snd p) "") ps)
                      (App.tempText (App.app w)))
                   (App.stars (App.app w)))).
    { apply Forall_forall. intros s Hs.
      apply list_elem_of_In, in_map_iff in Hs as (s0 & <- & Hs0).
      apply launched_star_ok; [exact Hurls|].
      rewrite Forall_forall in Hst. apply Hst, list_elem_of_In, Hs0. }
    split; [exact Hnew|]. split; [constructor|].
    apply saveGame_stored_ok; [exact Hnew|].
    eapply stored_ok_state; [|exact Hdb]. exact Hstate.
  - split; [exact Hst|]. split; [exact Htmp|].
    eapply stored_ok_state; [|exact Hdb]. exact Hstate.
Qed.

Lemma processFiles_alignment `{Env} (files : list File) (w : App.World) :
  (forall b, createObjectURL b <> "") ->
  alignment_inv w -> alignment_inv (App.processFiles files w).
Proof.
  intros Hurl (Hst & Htmp & Hdb). unfold App.processFiles.
  destruct (_ <=? 0); [repeat split; assumption|].
  split; [exact Hst|]. split; [|exact Hdb].
  cbn. apply Forall_app. split; [exact Htmp|].
  apply Forall_forall. intros t Ht.
  apply list_elem_of_In, in_map_iff in Ht as (f & <- & _). apply Hurl.
Qed.

(** Every request keeps the invariant. *)
Lemma step_alignment `{Env} (export : App.World -> App.World) (e : App.Event)
    (w : App.World) :
  (forall b, createObjectURL b <> "") ->
  (forall w0, App.app (export w0) = App.app w0 /\
              App.idb (export w0) = App.idb w0) ->
  alignment_inv w -> alignment_inv (App.step export e w).
Proof.
  intros Hurl Hexp Hinv.
  destruct e as [files| |id|id| |files|files|index|t| |newPlaylist|i|];
    cbn [App.step].
  - apply handleMusicUpload_alignment, Hinv.
  - destruct Hinv as (Hst & Htmp & Hdb). split; [exact Hst|].
    split; [exact Htmp|]. apply saveGame_stored_ok; assumption.
  - destruct Hinv as (Hst & Htmp & Hdb). unfold App.handleStarClick.
    destruct (List.find _ _) as [star|] eqn:Hfind;
      [|repeat split; assumption].
    split; [exact Hst|]. split; [|exact Hdb].
    cbn. apply Forall_forall. intros t Ht.
    apply existingImages_url in Ht.
    apply find_In in Hfind. rewrite Forall_forall in Hst.
    destruct (Hst star Hfind) as [_ Hne].
    rewrite Forall_forall in Hne. apply Hne, Ht.
  - destruct Hinv as (Hst & Htmp & Hdb).
    assert (Hnew : Forall star_ok (map (App.viewed id) (App.stars (App.app w)))).
    { apply Forall_forall. intros s Hs.
      apply list_elem_of_In, in_map_iff in Hs as (s0 & <- & Hs0).
      apply viewed_star_ok. rewrite Forall_forall in Hst.
      apply Hst, list_elem_of_In, Hs0. }
    split; [exact Hnew|]. split; [exact Htmp|].
    apply saveGame_stored_ok; assumption.
  - apply handleLaunchStar_alignment, Hinv.
  - destruct files as [fs|]; [|exact Hinv].
    apply processFiles_alignment; assumption.
  - unfold App.handleDrop. destruct files as [|f fs]; [exact Hinv|].
    apply processFiles_alignment; [exact Hurl | exact Hinv].
  - destruct Hinv as (Hst & Htmp & Hdb). split; [exact Hst|].
    split; [|exact Hdb]. cbn. apply Forall_delete, Htmp.
  - exact Hinv.
  - exact Hinv.
  - destruct Hinv as (Hst & Htmp & Hdb). split; [exact Hst|].
    split; [exact Htmp|]. apply saveGame_stored_ok; assumption.
  - exact Hinv.
  - destruct Hinv as (Hst & Htmp & Hdb). destruct (Hexp w) as [Happ Hidb].
    unfold alignment_inv. rewrite Happ, Hidb. repeat split; assumption.
Qed.

Lemma run_alignment `{Env} (export : App.World -> App.World)
    (es : list App.Event) (w : App.World) :
  (forall b, createObjectURL b <> "") ->
  (forall w0, App.app (export w0) = App.app w0 /\
              App.idb (export w0) = App.idb w0) ->
  alignment_inv w -> alignment_inv (App.run export es w).
Proof.
  intros Hurl Hexp. revert w. unfold App.run.
  induction es as [|e es IH]; intros w Hinv; [exact Hinv|].
  simpl. apply IH, step_alignment; assumption.
Qed.

Lemma generateRandomStars_ok `{Env} (r : nat) :
  Forall star_ok (App.generateRandomStars r).
Proof.
  unfold App.generateRandomStars. apply Forall_forall. intros s Hs.
  apply list_elem_of_In, in_map_iff in Hs as (i & <- & _).
  split; [reflexivity | constructor].
Qed.

Lemma mount_alignment `{Env} (seed : Seed) (db : DB.IDB) (r : nat) :
  Forall star_ok (STATIC_STARS seed) -> stored_ok db ->
  alignment_inv (App.mount seed db r).
Proof.
  intros Hseed Hdb. split; [|split; [constructor | exact Hdb]].
  unfold App.mount, App.initialState. cbn [App.app App.stars].
  destruct (0 <? length (STATIC_STARS seed))%nat;
    [exact Hseed | apply generateRandomStars_ok].
Qed.

(** The stars a successful restore yields, given those of the saved
    document. *)
Lemma restore_Forall `{Env} (P : StarData.t -> Prop) (saved : DB.GameState)
    (db db' : DB.IDB) (st : list StarData.t) (pl : list Song.t) (n : Z) :
  (forall s s' d d', App.restoreStar s d = (Resolved s', d') -> P s -> P s') ->
  App.restore saved db = (Resolved (st, pl, n), db') ->
  Forall P (DB.stars saved) -> Forall P st.
Proof.
  intros HP Hres Hsaved.
  eapply (Forall2_Forall_transfer P (fun s s' => P s -> P s'));
    [auto | | exact Hsaved].
  eapply restore_stars; [|exact Hres]. exact HP.
Qed.


Lemma init_000_alignment `{Env} (seed : Seed) (w : App.World) :
  Forall star_ok (STATIC_STARS seed) ->
  alignment_inv w -> alignment_inv (Part000.init seed w).
Proof.
  intros Hseed (Hst & Htmp & Hdb). unfold Part000.init.
  pose proof (loadGameState_snd (App.idb w)) as Hsnd.
  destruct (DB.loadGameState (App.idb w)) as [[[saved|]|] db1] eqn:Hload;
    simpl in Hsnd; subst db1; try (repeat split; assumption).
  - apply loadGameState_inv in Hload as [_ Hsaved].
    pose proof (restore_state saved (App.idb w)) as Hstate.
    destruct (App.restore saved (App.idb w)) as [[[[st pl] n]|] db2] eqn:Hres;
      simpl in Hstate.
    + split; [|split; [exact Htmp|]].
      * cbn. eapply restore_Forall; [| exact Hres |].
        -- intros s s' d d'. apply restoreStar_star_ok.
        -- apply Hdb. symmetry. exact Hsaved.
      * eapply stored_ok_state; [|exact Hdb]. exact Hstate.
    + split; [exact Hst|]. split; [exact Htmp|].
      eapply stored_ok_state; [|exact Hdb]. exact Hstate.
  - destruct (0 <? length (STATIC_STARS seed))%nat;
      [|repeat split; assumption].
    split; [exact Hst|]. split; [exact Htmp|].
    apply (saveGame_stored_ok (STATIC_STARS seed) (STATIC_PLAYLIST seed)
             (INITIAL_PLAYBACK_COUNT seed) w); assumption.
Qed.

Lemma export_001_inert `{Env} (w0 : App.World) :
  App.app (Part001.handleExportData w0) = App.app w0 /\
  App.idb (Part001.handleExportData w0) = App.idb w0.
Proof.
  unfold Part001.handleExportData. destruct clipboard_rejects; split; reflexivity.
Qed.

Lemma export_000_inert (w0 : App.World) :
  App.app (Part000.handleExportData w0) = App.app w0 /\
  App.idb (Part000.handleExportData w0) = App.idb w0.
Proof. split; reflexivity. Qed.

Lemma star_ok_aligned (l : list StarData.t) :
  Forall star_ok l -> Forall star_aligned l.
Proof. intros Hl. eapply Forall_impl; [exact Hl|]. intros s [Hs _]. exact Hs. Qed.

Lemma handleLaunchStar_written `{Env} (w : App.World) (editing : Z)
    (ps : list (string * option string)) (db1 : DB.IDB) (s : StarData.t) :
  App.editingStarId (App.app w) = Some editing ->
  DB.all (map App.processImage (App.tempImages (App.app w))) (App.idb w)
  = (Resolved ps, db1) ->
  s ∈ App.stars (App.app (App.handleLaunchStar w)) ->
  StarData.id s = editing ->
  StarData.images s = map fst ps /\
  StarData.imageAssetIds s = Some (map (fun p => or_else_undef (snd p) "") ps).
Proof.
  intros Hed Hall Hs Hid. unfold App.handleLaunchStar in Hs.
  rewrite Hed, Hall in Hs. cbn in Hs.
  apply list_elem_of_In, in_map_iff in Hs as (s0 & <- & _).
  unfold App.launched in *.
  destruct (Z.eqb_spec (StarData.id s0) editing); [split; reflexivity|].
  contradiction.
Qed.

(** The same for the revision with the first-run branch. *)
Lemma persisted_alignment_000 `{Env} (seed : Seed) (db : DB.IDB) (r : nat)
    (es : list App.Event) :
  (forall b, createObjectURL b <> "") ->
  Forall star_ok (STATIC_STARS seed) ->
  stored_ok db ->
  forall d : DB.GameState,
    DB.state (App.idb (Part000.session seed db r es)) !! "current" = Some d ->
    Forall star_aligned (DB.stars d).
Proof.
  intros Hurl Hseed Hdb d Hd.
  assert (Hinv : alignment_inv (Part000.session seed db r es)).
  { unfold Part000.session, Part000.run.
    apply run_alignment; [exact Hurl | apply export_000_inert |].
    apply init_000_alignment; [exact Hseed|].
    apply mount_alignment; assumption. }
  destruct Hinv as (_ & _ & Hstored). apply star_ok_aligned, Hstored, Hd.
Qed.

(** ** At most four images *)

(** [processFiles] appends at most as many pending images as there are
    files, and at most four minus the number already pending. *)
Lemma processFiles_admits `{Env} (files : list File) (w : App.World) :
  exists new : list App.TempImage,
    App.tempImages (App.app (App.processFiles files w))
    = App.tempImages (App.app w) ++ new /\
    (length new <= length files)%nat /\
    Z.of_nat (length new)
    <= Z.max 0 (4 - Z.of_nat (length (App.tempImages (App.app w)))) /\
    App.stars (App.app (App.processFiles files w)) = App.stars (App.app w).
Proof.
  unfold App.processFiles.
  destruct (Z.leb_spec (4 - Z.of_nat (length (App.tempImages (App.app w)))) 0)
    as [Hle|Hgt].
  - exists []. rewrite app_nil_r. repeat split; simpl; lia.
  - eexists. split; [reflexivity|].
    rewrite length_map, length_firstn. repeat split; lia.
Qed.

Lemma processFiles_four `{Env} (files : list File) (w : App.World) :
  four_inv w -> four_inv (App.processFiles files w).
Proof.
  intros [Hst Htmp].
  destruct (processFiles_admits files w) as (new & Heq & _ & Hnew & Hstars).
  split; [rewrite Hstars; exact Hst|].
  rewrite Heq, length_app. lia.
Qed.

Lemma length_delete_le {A : Type} (i : nat) (l : list A) :
  (length (delete i l) <= length l)%nat.
Proof.
  revert i. induction l as [|x l IH]; intros [|i]; simpl; try lia.
  specialize (IH i). lia.
Qed.

Lemma viewed_at_most_four (id : Z) (s : StarData.t) :
  at_most_four s -> at_most_four (App.viewed id s).
Proof.
  unfold at_most_four. destruct (viewed_fields id s) as (_ & _ & -> & _). auto.
Qed.

Lemma handleMusicUpload_pending `{Env} (files : list File) (w : App.World) :
  App.stars (App.app (App.handleMusicUpload files w)) = App.stars (App.app w) /\
  App.tempImages (App.app (App.handleMusicUpload files w))
  = App.tempImages (App.app w).
Proof.
  unfold App.handleMusicUpload. destruct files as [|file files]; [auto|].
  destruct (_ >=? _); [auto|].
  destruct (DB.saveAsset (file_blob file) (App.idb w)) as [[assetId|] db1];
    auto.
Qed.

Lemma handleLaunchStar_four `{Env} (w : App.World) :
  four_inv w -> four_inv (App.handleLaunchStar w).
Proof.
  intros [Hst Htmp]. unfold App.handleLaunchStar.
  destruct (App.editingStarId (App.app w)) as [editing|]; [|split; assumption].
  destruct (DB.all (map App.processImage (App.tempImages (App.app w)))
              (App.idb w)) as [[ps|] db1] eqn:Hall; [|split; assumption].
  split; [|cbn; lia]. cbn.
  apply Forall_forall. intros s Hs.
  apply list_elem_of_In, in_map_iff in Hs as (s0 & <- & Hs0).
  unfold App.launched. destruct (StarData.id s0 =? editing).
  - unfold at_most_four. cbn.
    rewrite (processImages_urls _ _ _ _ Hall), length_map. exact Htmp.
  - rewrite Forall_forall in Hst. apply Hst, list_elem_of_In, Hs0.
Qed.

Lemma step_four `{Env} (export : App.World -> App.World) (e : App.Event)
    (w : App.World) :
  (forall w0, App.app (export w0) = App.app w0 /\
              App.idb (export w0) = App.idb w0) ->
  four_inv w -> four_inv (App.step export e w).
Proof.
  intros Hexp Hinv.
  destruct e as [files| |id|id| |files|files|index|t| |newPlaylist|i|];
    cbn [App.step]; try exact Hinv.
  - destruct (handleMusicUpload_pending files w) as [Hs Ht].
    unfold four_inv. rewrite Hs, Ht. exact Hinv.
  - destruct Hinv as [Hst Htmp]. unfold App.handleStarClick.
    destruct (List.find _ _) as [star|] eqn:Hfind; [|split; assumption].
    split; [exact Hst|]. cbn. unfold App.existingImages.
    rewrite length_imap. apply find_In in Hfind.
    rewrite Forall_forall in Hst. apply (Hst star Hfind).
  - destruct Hinv as [Hst Htmp]. split; [|exact Htmp]. cbn.
    apply Forall_forall. intros s Hs.
    apply list_elem_of_In, in_map_iff in Hs as (s0 & <- & Hs0).
    apply viewed_at_most_four. rewrite Forall_forall in Hst.
    apply Hst, list_elem_of_In, Hs0.
  - apply handleLaunchStar_four, Hinv.
  - destruct files as [fs|]; [|exact Hinv]. apply processFiles_four, Hinv.
  - unfold App.handleDrop. destruct files as [|f fs]; [exact Hinv|].
    apply processFiles_four. exact Hinv.
  - destruct Hinv as [Hst Htmp]. split; [exact Hst|]. cbn.
    pose proof (length_delete_le index (App.tempImages (App.app w))). lia.
  - destruct (Hexp w) as [Happ _]. unfold four_inv. rewrite Happ. exact Hinv.
Qed.

Lemma run_four `{Env} (export : App.World -> App.World)
    (es : list App.Event) (w : App.World) :
  (forall w0, App.app (export w0) = App.app w0 /\
              App.idb (export w0) = App.idb w0) ->
  four_inv w -> four_inv (App.run export es w).
Proof.
  intros Hexp. revert w. unfold App.run.
  induction es as [|e es IH]; intros w Hinv; [exact Hinv|].
  simpl. apply IH, step_four; assumption.
Qed.

Lemma mount_four `{Env} (seed : Seed) (db : DB.IDB) (r : nat) :
  Forall at_most_four (STATIC_STARS seed) -> four_inv (App.mount seed db r).
Proof.
  intros Hseed. split; [|cbn; lia].
  unfold App.mount, App.initialState. cbn [App.app App.stars].
  destruct (0 <? length (STATIC_STARS seed))%nat; [exact Hseed|].
  unfold App.generateRandomStars. apply Forall_forall. intros s Hs.
  apply list_elem_of_In, in_map_iff in Hs as (i & <- & _).
  unfold at_most_four. cbn. lia.
Qed.

Lemma init_001_four `{Env} (w : App.World) :
  stored_four (App.idb w) -> four_inv w -> four_inv (Part001.init w).
Proof.
  intros Hdb [Hst Htmp]. unfold Part001.init.
  destruct (DB.loadGameState (App.idb w)) as [[[saved|]|] db1] eqn:Hload;
    try (split; assumption).
  apply loadGameState_inv in Hload as [-> Hsaved].
  destruct (App.restore saved (App.idb w)) as [[[[st pl] n]|] db2] eqn:Hres;
    [|split; assumption].
  split; [|exact Htmp]. cbn.
  eapply restore_Forall; [| exact Hres |].
  - intros s s' d d'. apply restoreStar_at_most_four.
  - apply Hdb. symmetry. exact Hsaved.
Qed.

Lemma init_000_four `{Env} (seed : Seed) (w : App.World) :
  stored_four (App.idb w) -> four_inv w -> four_inv (Part000.init seed w).
Proof.
  intros Hdb [Hst Htmp]. unfold Part000.init.
  destruct (DB.loadGameState (App.idb w)) as [[[saved|]|] db1] eqn:Hload;
    try (split; assumption).
  - apply loadGameState_inv in Hload as [-> Hsaved].
    destruct (App.restore saved (App.idb w)) as [[[[st pl] n]|] db2] eqn:Hres;
      [|split; assumption].
    split; [|exact Htmp]. cbn.
    eapply restore_Forall; [| exact Hres |].
    + intros s s' d d'. apply restoreStar_at_most_four.
    + apply Hdb. symmetry. exact Hsaved.
  - destruct (0 <? length (STATIC_STARS seed))%nat; split; assumption.
Qed.

(** C9, as stated, fails. The pending list is pre-filled from the star
    that is opened: a star of the seed with five images is opened and
    launched unchanged, and the launch stores five images and five
    identifiers. *)
Lemma launch_four_counterexample :
  let w := @Part001.session demo_env five_seed DB.empty 0
             [App.StarClick 0; App.LaunchStar] in
  map (fun s => (length (StarData.images s),
                 length <$> StarData.imageAssetIds s))
      (App.stars (App.app w))
  = [(5%nat, Some 5%nat)] /\
  stored_lists (App.idb w)
  = Some [(["/a/1.jpg"; "/a/2.jpg"; "/a/3.jpg"; "/a/4.jpg"; "/a/5.jpg"],
           Some [""; ""; ""; ""; ""])].
Proof. split; vm_compute; reflexivity. Qed.

(** C9, amended. [processFiles] adds at most four minus the number of
    pending images per call. When no star of the seed and of the
    document found at startup holds more than four images, then after
    the startup restore and any sequence of requests the pending list
    and every live star hold at most four images, and a launch that
    stores its files writes at most four images and as many identifiers
    on the edited star. *)
Theorem launch_at_most_four `{Env} (seed : Seed) (db : DB.IDB) (r : nat)
    (es : list App.Event) :
  Forall at_most_four (STATIC_STARS seed) ->
  stored_four db ->
  let w := Part001.session seed db r es in
  (length (App.tempImages (App.app w)) <= 4)%nat /\
  Forall at_most_four (App.stars (App.app w)) /\
  (forall files : list File,
      exists new : list App.TempImage,
        App.tempImages (App.app (App.processFiles files w))
        = App.tempImages (App.app w) ++ new /\
        Z.of_nat (length new)
        <= Z.max 0 (4 - Z.of_nat (length (App.tempImages (App.app w)))) /\
        (length (App.tempImages (App.app (App.processFiles files w))) <= 4)%nat) /\
  (forall (editing : Z) (ps : list (string * option string)) (db1 : DB.IDB)
          (s : StarData.t),
      App.editingStarId (App.app w) = Some editing ->
      DB.all (map App.processImage (App.tempImages (App.app w))) (App.idb w)
      = (Resolved ps, db1) ->
      s ∈ App.stars (App.app (App.handleLaunchStar w)) ->
      StarData.id s = editing ->
      (length (StarData.images s) <= 4)%nat /\
      exists ids : list string,
        StarData.imageAssetIds s = Some ids /\
        length ids = length (StarData.images s)).
Proof.
  intros Hseed Hdb. cbv zeta.
  assert (Hinv : four_inv (Part001.session seed db r es)).
  { unfold Part001.session, Part001.run.
    apply run_four; [apply export_001_inert|].
    apply init_001_four; [exact Hdb | apply mount_four, Hseed]. }
  destruct Hinv as [Hst Htmp].
  split; [exact Htmp|]. split; [exact Hst|]. split.
  - intros files.
    destruct (processFiles_admits files (Part001.session seed db r es))
      as (new & Heq & _ & Hnew & _).
    exists new. split; [exact Heq|]. split; [exact Hnew|].
    rewrite Heq, length_app. lia.
  - intros editing ps db1 s Hed Hall Hs Hid.
    destruct (handleLaunchStar_written _ _ _ _ _ Hed Hall Hs Hid)
      as [Himgs Hids].
    split.
    + rewrite Himgs, (processImages_urls _ _ _ _ Hall), length_map.
      exact Htmp.
    + eexists. split; [exact Hids|].
      rewrite Himgs, !length_map. reflexivity.
Qed.

(** The same bound for the revision with the first-run branch. *)
Lemma launch_at_most_four_000 `{Env} (seed : Seed) (db : DB.IDB) (r : nat)
    (es : list App.Event) :
  Forall at_most_four (STATIC_STARS seed) ->
  stored_four db ->
  four_inv (Part000.session seed db r es).
Proof.
  intros Hseed Hdb. unfold Part000.session, Part000.run.
  apply run_four; [apply export_000_inert|].
  apply init_000_four; [exact Hdb | apply mount_four, Hseed].
Qed.

(** From the shipped seed: six photos are offered in two calls and four
    are admitted. *)
Lemma launch_at_most_four_witness :
  length
    (App.tempImages
       (App.app
          (@Part001.session demo_env shipped_seed DB.empty 0
             [App.StarClick 3;
              App.ImageSelect (Some [photo "a"; photo "b"; photo "c"]);
              App.Drop [photo "d"; photo "e"; photo "f"]])))
  = 4%nat /\
  (length
     (App.tempImages
        (App.app
           (@Part001.session demo_env shipped_seed DB.empty 0
              [App.StarClick 3;
               App.ImageSelect (Some [photo "a"; photo "b"; photo "c"]);
               App.Drop [photo "d"; photo "e"; photo "f"]]))) <= 4)%nat.
Proof.
  split; [vm_compute; reflexivity|].
  destruct (@launch_at_most_four demo_env shipped_seed DB.empty 0%nat
              [App.StarClick 3;
               App.ImageSelect (Some [photo "a"; photo "b"; photo "c"]);
               App.Drop [photo "d"; photo "e"; photo "f"]]) as (Hlen & _).
  - constructor.
  - intros d Hd. vm_compute in Hd. discriminate.
  - exact Hlen.
Defined.

(** * Further properties of the code *)

(** ** The asset store *)

(** X1. Storing a blob and reading it back: when the requests go
    through, [saveAsset] resolves with the identifier drawn for it,
    [getAsset] of that identifier then resolves with the blob, every
    other identifier reads as before, and the document store is not
    touched. *)
Theorem saveAsset_getAsset `{Env} (blob : Blob) (db : DB.IDB) :
  idb_fails ReqOpen = false ->
  idb_fails (ReqPutAsset (randomUUID (DB.drawn db))) = false ->
  idb_fails (ReqGetAsset (randomUUID (DB.drawn db))) = false ->
  exists db' : DB.IDB,
    DB.saveAsset blob db = (Resolved (randomUUID (DB.drawn db)), db') /\
    DB.getAsset (randomUUID (DB.drawn db)) db' = (Resolved (Some blob), db') /\
    (forall id' : string,
        id' <> randomUUID (DB.drawn db) ->
        DB.assets db' !! id' = DB.assets db !! id') /\
    DB.state db' = DB.state db /\
    DB.drawn db' = S (DB.drawn db).
Proof.
  intros Ho Hp Hg. eexists. split.
  { unfold DB.saveAsset, DB.bind, DB.openDB, DB.request_.
    rewrite Ho, Hp. reflexivity. }
  split.
  { rewrite getAsset_ok by assumption. cbn [DB.assets].
    rewrite lookup_insert_eq. reflexivity. }
  split; [|split; reflexivity].
  intros id' Hne. cbn [DB.assets]. apply lookup_insert_ne. congruence.
Qed.

Lemma saveAsset_getAsset_witness :
  exists db' : DB.IDB,
    @DB.saveAsset demo_env "photo" DB.empty = (Resolved "uuid-0", db') /\
    @DB.getAsset demo_env "uuid-0" db' = (Resolved (Some "photo"), db').
Proof.
  destruct (@saveAsset_getAsset demo_env "photo" DB.empty)
    as (db' & Hs & Hg & _); [reflexivity | reflexivity | reflexivity |].
  exists db'. split; [exact Hs | exact Hg].
Defined.

(** X2. Deleting an asset: when the database opens and the delete
    request goes through, the identifier reads as absent afterwards,
    every other identifier and the document store are as before, and
    deleting an identifier that is not stored changes nothing. *)
Theorem deleteAsset_getAsset `{Env} (id : string) (db : DB.IDB) :
  idb_fails ReqOpen = false ->
  idb_fails (ReqDeleteAsset id) = false ->
  idb_fails (ReqGetAsset id) = false ->
  exists db' : DB.IDB,
    DB.deleteAsset id db = (Resolved tt, db') /\
    DB.getAsset id db' = (Resolved None, db') /\
    (forall id' : string,
        id' <> id -> DB.assets db' !! id' = DB.assets db !! id') /\
    DB.state db' = DB.state db /\
    (DB.assets db !! id = None -> DB.assets db' = DB.assets db).
Proof.
  intros Ho Hd Hg. eexists. split.
  { unfold DB.deleteAsset, DB.bind, DB.openDB, DB.request_.
    rewrite Ho, Hd. reflexivity. }
  split.
  { rewrite getAsset_ok by assumption. cbn [DB.assets].
    rewrite lookup_delete_eq. reflexivity. }
  split.
  { intros id' Hne. cbn [DB.assets]. apply lookup_delete_ne. congruence. }
  split; [reflexivity|].
  intros Habs. cbn [DB.assets]. apply delete_id, Habs.
Qed.

Lemma deleteAsset_getAsset_witness :
  exists db' : DB.IDB,
    @DB.deleteAsset demo_env "uuid-0" loaded_db = (Resolved tt, db') /\
    @DB.getAsset demo_env "uuid-0" db' = (Resolved None, db').
Proof.
  destruct (@deleteAsset_getAsset demo_env "uuid-0" loaded_db)
    as (db' & Hd & Hg & _); [reflexivity | reflexivity | reflexivity |].
  exists db'. split; [exact Hd | exact Hg].
Defined.

Lemma getAsset_snd `{Env} (id : string) (db : DB.IDB) :
  snd (DB.getAsset id db) = db.
Proof.
  unfold DB.getAsset, DB.bind, DB.openDB, DB.request_.
  destruct (idb_fails ReqOpen); [reflexivity|].
  destruct (idb_fails (ReqGetAsset id)); reflexivity.
Qed.

Lemma all_snd {A : Type} (ms : list (DB.Async A)) (db : DB.IDB) :
  (forall m, In m ms -> forall db0, snd (m db0) = db0) ->
  snd (DB.all ms db) = db.
Proof.
  induction ms as [|m ms IH]; intros Hms; [reflexivity|].
  simpl. pose proof (Hms m (or_introl eq_refl) db) as Hm.
  destruct (m db) as [r db1]. simpl in Hm. subst db1.
  specialize (IH (fun m' Hm' => Hms m' (or_intror Hm'))).
  destruct (DB.all ms db) as [rs db2]. simpl in IH. subst db2.
  destruct r, rs; reflexivity.
Qed.

Lemma restoreStar_snd `{Env} (s : StarData.t) (db : DB.IDB) :
  snd (App.restoreStar s db) = db.
Proof.
  unfold App.restoreStar.
  destruct (StarData.imageAssetIds s) as [ids|]; [|reflexivity].
  destruct (0 <? length ids)%nat; [|reflexivity].
  unfold DB.bind.
  pose proof (all_snd (map DB.getAsset ids) db) as Hall.
  destruct (DB.all (map DB.getAsset ids) db) as [[blobs|] db1]; simpl in *;
    apply Hall; intros m Hm db0;
    apply in_map_iff in Hm as (id & <- & _); apply getAsset_snd.
Qed.

Lemma restoreSong_snd `{Env} (s : Song.t) (db : DB.IDB) :
  snd (App.restoreSong s db) = db.
Proof.
  unfold App.restoreSong.
  destruct (Song.assetId s) as [id|]; [|reflexivity].
  destruct (truthy id); [|reflexivity].
  unfold DB.bind. pose proof (getAsset_snd id db) as Hg.
  destruct (DB.getAsset id db) as [[[b|]|] db1]; exact Hg.
Qed.

Lemma restore_snd `{Env} (saved : DB.GameState) (db : DB.IDB) :
  snd (App.restore saved db) = db.
Proof.
  unfold App.restore, DB.bind.
  assert (Hdb1 : snd (DB.all (map App.restoreStar (DB.stars saved)) db) = db).
  { apply all_snd. intros m Hm db0. apply in_map_iff in Hm as (x & <- & _).
    apply restoreStar_snd. }
  destruct (DB.all (map App.restoreStar (DB.stars saved)) db) as [[st|] db1];
    simpl in Hdb1; subst db1; [|reflexivity].
  assert (Hdb2 : snd (DB.all (map App.restoreSong (DB.playlist saved)) db) = db).
  { apply all_snd. intros m Hm db0. apply in_map_iff in Hm as (x & <- & _).
    apply restoreSong_snd. }
  destruct (DB.all (map App.restoreSong (DB.playlist saved)) db) as [[pl|] db2];
    simpl in Hdb2; subst db2; reflexivity.
Qed.

(** X3. Reads never write: [getAsset], [loadGameState] and the whole
    restore of a saved document hand back the database they were given,
    whichever requests fail. *)
Theorem restore_readonly `{Env} (saved : DB.GameState) (id : string)
    (db : DB.IDB) :
  snd (DB.getAsset id db) = db /\
  snd (DB.loadGameState db) = db /\
  snd (App.restore saved db) = db.
Proof.
  split; [apply getAsset_snd|]. split; [apply loadGameState_snd|].
  apply restore_snd.
Qed.

(** ** The document store across a session *)

Lemma saveGameState_other `{Env} (d : DB.GameState) (db : DB.IDB) (k : string) :
  k <> "current" ->
  DB.state (snd (DB.saveGameState d db)) !! k = DB.state db !! k.
Proof.
  intros Hk. unfold DB.saveGameState, DB.bind, DB.openDB, DB.request_.
  destruct (idb_fails ReqOpen); [reflexivity|].
  destruct (idb_fails ReqPutState); [reflexivity|].
  cbn. apply lookup_insert_ne. congruence.
Qed.

Lemma saveGameState_assets `{Env} (d : DB.GameState) (db : DB.IDB) :
  DB.assets (snd (DB.saveGameState d db)) = DB.assets db.
Proof.
  unfold DB.saveGameState, DB.bind, DB.openDB, DB.request_.
  destruct (idb_fails ReqOpen); [reflexivity|].
  destruct (idb_fails ReqPutState); reflexivity.
Qed.

(** The keys of the document store other than [current], request by
    request. *)
Lemma step_state_other `{Env} (export : App.World -> App.World)
    (e : App.Event) (w : App.World) (k : string) :
  (forall w0, App.app (export w0) = App.app w0 /\
              App.idb (export w0) = App.idb w0) ->
  k <> "current" ->
  DB.state (App.idb (App.step export e w)) !! k = DB.state (App.idb w) !! k.
Proof.
  intros Hexp Hk.
  destruct e as [files| |id|id| |files|files|index|t| |newPlaylist|i|];
    cbn [App.step]; try reflexivity.
  - unfold App.handleMusicUpload. destruct files as [|file files]; [reflexivity|].
    destruct (_ >=? _); [reflexivity|].
    pose proof (saveAsset_state (file_blob file) (App.idb w)) as Hs.
    destruct (DB.saveAsset (file_blob file) (App.idb w)) as [[assetId|] db1];
      simpl in Hs.
    + unfold App.saveGame. cbn [App.idb App.with_idb].
      rewrite saveGameState_other by exact Hk. rewrite Hs. reflexivity.
    + cbn. rewrite Hs. reflexivity.
  - unfold App.handleSongEnd, App.saveGame. cbn [App.idb App.with_idb App.with_app].
    apply saveGameState_other, Hk.
  - unfold App.handleStarClick. destruct (List.find _ _); reflexivity.
  - unfold App.handleStarView, App.saveGame. cbn [App.idb App.with_idb App.with_app].
    apply saveGameState_other, Hk.
  - unfold App.handleLaunchStar.
    destruct (App.editingStarId (App.app w)) as [editing|]; [|reflexivity].
    pose proof (processImages_state (App.tempImages (App.app w)) (App.idb w))
      as Hs.
    destruct (DB.all (map App.processImage (App.tempImages (App.app w)))
                (App.idb w)) as [[ps|] db1]; simpl in Hs.
    + unfold App.saveGame. cbn [App.idb App.with_idb App.with_app].
      rewrite saveGameState_other by exact Hk. rewrite Hs. reflexivity.
    + cbn. rewrite Hs. reflexivity.
  - destruct files as [fs|]; [|reflexivity]. cbn.
    unfold App.processFiles. destruct (_ <=? 0); reflexivity.
  - unfold App.handleDrop. destruct files as [|f fs]; [reflexivity|].
    unfold App.processFiles. destruct (_ <=? 0); reflexivity.
  - unfold App.handlePlaylistUpdate, App.saveGame.
    cbn [App.idb App.with_idb App.with_app].
    apply saveGameState_other, Hk.
  - destruct (Hexp w) as [_ Hidb]. rewrite Hidb. reflexivity.
Qed.

Lemma init_001_idb `{Env} (w : App.World) :
  App.idb (Part001.init w) = App.idb w.
Proof.
  unfold Part001.init.
  pose proof (loadGameState_snd (App.idb w)) as Hsnd.
  destruct (DB.loadGameState (App.idb w)) as [[[saved|]|] db1];
    simpl in Hsnd; subst db1; try (destruct w; reflexivity).
  pose proof (restore_snd saved (App.idb w)) as Hr.
  destruct (App.restore saved (App.idb w)) as [[r|] db2]; simpl in Hr; subst db2;
    destruct w; reflexivity.
Qed.

Lemma init_000_idb `{Env} (seed : Seed) (w : App.World) :
  App.idb (Part000.init seed w) = App.idb w \/
  App.idb (Part000.init seed w)
  = snd (DB.saveGameState
           (DB.mkGameState (STATIC_STARS seed) (STATIC_PLAYLIST seed)
              (INITIAL_PLAYBACK_COUNT seed)) (App.idb w)).
Proof.
  unfold Part000.init.
  pose proof (loadGameState_snd (App.idb w)) as Hsnd.
  destruct (DB.loadGameState (App.idb w)) as [[[saved|]|] db1];
    simpl in Hsnd; subst db1.
  - pose proof (restore_snd saved (App.idb w)) as Hr.
    destruct (App.restore saved (App.idb w)) as [[r|] db2]; simpl in Hr;
      subst db2; left; destruct w; reflexivity.
  - destruct (0 <? length (STATIC_STARS seed))%nat;
      [right | left]; destruct w; reflexivity.
  - left. destruct w; reflexivity.
Qed.

Lemma run_state_other `{Env} (export : App.World -> App.World)
    (es : list App.Event) (w : App.World) (k : string) :
  (forall w0, App.app (export w0) = App.app w0 /\
              App.idb (export w0) = App.idb w0) ->
  k <> "current" ->
  DB.state (App.idb (App.run export es w)) !! k = DB.state (App.idb w) !! k.
Proof.
  intros Hexp Hk. revert w. unfold App.run.
  induction es as [|e es IH]; intros w; [reflexivity|].
  simpl. rewrite IH. apply step_state_other; assumption.
Qed.

(** X5. The application writes no key of the document store but
    [current]: in either revision, a session that starts on a store
    holding at most that record ends on a store holding at most that
    record, whatever the requests and whichever of them fail. *)
Theorem session_single_record `{Env} (seed : Seed) (db : DB.IDB) (r : nat)
    (es : list App.Event) :
  single_record db ->
  single_record (App.idb (Part001.session seed db r es)) /\
  single_record (App.idb (Part000.session seed db r es)).
Proof.
  intros Hdb. split; intros k Hk.
  - unfold Part001.session, Part001.run.
    rewrite run_state_other by (exact Hk || apply export_001_inert).
    rewrite init_001_idb. apply Hdb, Hk.
  - unfold Part000.session, Part000.run.
    rewrite run_state_other by (exact Hk || apply export_000_inert).
    destruct (init_000_idb seed (App.mount seed db r)) as [-> | ->].
    + apply Hdb, Hk.
    + rewrite saveGameState_other by exact Hk. apply Hdb, Hk.
Qed.

Lemma session_single_record_witness :
  single_record
    (App.idb (@Part001.session demo_env example_seed DB.empty 0
                [App.StarView 0; App.SongEnd])).
Proof.
  destruct (@session_single_record demo_env example_seed DB.empty 0%nat
              [App.StarView 0; App.SongEnd]) as [H1 _].
  - exact single_record_empty.
  - exact H1.
Defined.

(** X6. The last save wins: when the requests go through, saving one
    document and then another leaves a store from which [load] returns
    the second, and the asset store is as it was. *)
Theorem saveGameState_overwrites `{Env} (d1 d2 : DB.GameState) (db : DB.IDB) :
  idb_fails ReqOpen = false ->
  idb_fails ReqPutState = false ->
  idb_fails ReqGetState = false ->
  let db2 := snd (DB.saveGameState d2 (snd (DB.saveGameState d1 db))) in
  fst (DB.loadGameState db2) = Resolved (Some d2) /\
  db2 = snd (DB.saveGameState d2 db) /\
  DB.assets db2 = DB.assets db.
Proof.
  intros Ho Hp Hg. cbv zeta.
  rewrite !saveGameState_ok by assumption. cbn [snd DB.assets DB.state DB.drawn].
  rewrite loadGameState_ok by assumption. cbn [fst DB.state].
  rewrite insert_insert_eq, lookup_insert_eq. repeat split.
Qed.

Lemma saveGameState_overwrites_witness :
  fst (@DB.loadGameState demo_env
         (snd (@DB.saveGameState demo_env (DB.mkGameState [] [] 7)
                 (snd (@DB.saveGameState demo_env loaded_doc DB.empty)))))
  = Resolved (Some (DB.mkGameState [] [] 7)).
Proof.
  destruct (@saveGameState_overwrites demo_env loaded_doc
              (DB.mkGameState [] [] 7) DB.empty) as (Hl & _);
    [reflexivity | reflexivity | reflexivity |].
  exact Hl.
Defined.

(** ** Startup, whatever fails *)

Lemma saveGameState_offline `{Env} (d : DB.GameState) (db : DB.IDB) :
  idb_fails ReqOpen = true -> DB.saveGameState d db = (Rejected, db).
Proof.
  intros Ho. unfold DB.saveGameState, DB.bind, DB.openDB, DB.request_.
  rewrite Ho. reflexivity.
Qed.

Lemma processImage_offline `{Env} (img : App.TempImage) (db : DB.IDB) :
  idb_fails ReqOpen = true -> snd (App.processImage img db) = db.
Proof.
  intros Ho. unfold App.processImage. destruct (App.file img); [|reflexivity].
  unfold DB.bind, DB.saveAsset, DB.bind, DB.openDB, DB.request_.
  rewrite Ho. reflexivity.
Qed.

Lemma step_offline `{Env} (export : App.World -> App.World) (e : App.Event)
    (w : App.World) :
  (forall w0, App.app (export w0) = App.app w0 /\
              App.idb (export w0) = App.idb w0) ->
  idb_fails ReqOpen = true ->
  App.idb (App.step export e w) = App.idb w.
Proof.
  intros Hexp Ho.
  destruct e as [files| |id|id| |files|files|index|t| |newPlaylist|i|];
    cbn [App.step]; try reflexivity.
  - unfold App.handleMusicUpload. destruct files as [|file files]; [reflexivity|].
    destruct (_ >=? _); [reflexivity|].
    unfold DB.saveAsset, DB.bind, DB.openDB, DB.request_. rewrite Ho.
    reflexivity.
  - unfold App.handleSongEnd, App.saveGame. cbn [App.idb App.with_idb App.with_app].
    rewrite saveGameState_offline by exact Ho. reflexivity.
  - unfold App.handleStarClick. destruct (List.find _ _); reflexivity.
  - unfold App.handleStarView, App.saveGame. cbn [App.idb App.with_idb App.with_app].
    rewrite saveGameState_offline by exact Ho. reflexivity.
  - unfold App.handleLaunchStar.
    destruct (App.editingStarId (App.app w)) as [editing|]; [|reflexivity].
    assert (Hs : snd (DB.all (map App.processImage (App.tempImages (App.app w)))
                        (App.idb w)) = App.idb w).
    { apply all_snd. intros m Hm db0. apply in_map_iff in Hm as (img & <- & _).
      apply processImage_offline, Ho. }
    destruct (DB.all (map App.processImage (App.tempImages (App.app w)))
                (App.idb w)) as [[ps|] db1]; simpl in Hs; subst db1.
    + unfold App.saveGame. cbn [App.idb App.with_idb App.with_app].
      rewrite saveGameState_offline by exact Ho. reflexivity.
    + reflexivity.
  - destruct files as [fs|]; [|reflexivity]. cbn.
    unfold App.processFiles. destruct (_ <=? 0); reflexivity.
  - unfold App.handleDrop. destruct files as [|f fs]; [reflexivity|].
    unfold App.processFiles. destruct (_ <=? 0); reflexivity.
  - unfold App.handlePlaylistUpdate, App.saveGame.
    cbn [App.idb App.with_idb App.with_app].
    rewrite saveGameState_offline by exact Ho. reflexivity.
  - destruct (Hexp w) as [_ Hidb]. exact Hidb.
Qed.

Lemma run_offline `{Env} (export : App.World -> App.World)
    (es : list App.Event) (w : App.World) :
  (forall w0, App.app (export w0) = App.app w0 /\
              App.idb (export w0) = App.idb w0) ->
  idb_fails ReqOpen = true ->
  App.idb (App.run export es w) = App.idb w.
Proof.
  intros Hexp Ho. revert w. unfold App.run.
  induction es as [|e es IH]; intros w; [reflexivity|].
  simpl. rewrite IH. apply step_offline; assumption.
Qed.

(** X7. With the local store out of reach (the database does not open),
    startup falls back to the seed: in either revision the live model
    after [init] is the initial one with the loading flag set, and a
    whole session leaves the database exactly as it found it. *)
Theorem session_store_unavailable `{Env} (seed : Seed) (db : DB.IDB) (r : nat)
    (es : list App.Event) :
  idb_fails ReqOpen = true ->
  App.app (Part001.init (App.mount seed db r))
  = App.setIsDataLoaded true (App.initialState seed r) /\
  App.app (Part000.init seed (App.mount seed db r))
  = App.setIsDataLoaded true (App.initialState seed r) /\
  App.idb (Part001.session seed db r es) = db /\
  App.idb (Part000.session seed db r es) = db.
Proof.
  intros Ho.
  assert (Hload : forall d, DB.loadGameState d = (Rejected, d)).
  { intros d. unfold DB.loadGameState, DB.bind, DB.openDB, DB.request_.
    rewrite Ho. reflexivity. }
  split; [unfold Part001.init; rewrite Hload; reflexivity|].
  split; [unfold Part000.init; rewrite Hload; reflexivity|].
  split.
  - unfold Part001.session, Part001.run.
    rewrite run_offline by (exact Ho || apply export_001_inert).
    apply init_001_idb.
  - unfold Part000.session, Part000.run.
    rewrite run_offline by (exact Ho || apply export_000_inert).
    unfold Part000.init. rewrite Hload. reflexivity.
Qed.

Lemma session_store_unavailable_witness :
  App.idb (@Part001.session offline_env example_seed loaded_db 0
             [App.StarView 0; App.SongEnd; App.MusicUpload [demo_file]])
  = loaded_db.
Proof.
  destruct (@session_store_unavailable offline_env example_seed loaded_db 0%nat
              [App.StarView 0; App.SongEnd; App.MusicUpload [demo_file]])
    as (_ & _ & Hdb & _); [reflexivity|].
  exact Hdb.
Defined.

(** X8. Startup never writes assets and always ends loading: whatever
    fails, [init] of the revision without the first-run branch returns
    the database untouched, [init] of the other revision leaves the asset
    store untouched, both set the loading flag, and both leave the
    pending form (images, text, edited star, modal) as it was. *)
Theorem init_always_ready `{Env} (seed : Seed) (w : App.World) :
  App.idb (Part001.init w) = App.idb w /\
  DB.assets (App.idb (Part000.init seed w)) = DB.assets (App.idb w) /\
  App.isDataLoaded (App.app (Part001.init w)) = true /\
  App.isDataLoaded (App.app (Part000.init seed w)) = true /\
  App.tempImages (App.app (Part001.init w)) = App.tempImages (App.app w) /\
  App.editingStarId (App.app (Part001.init w)) = App.editingStarId (App.app w) /\
  App.tempImages (App.app (Part000.init seed w)) = App.tempImages (App.app w) /\
  App.editingStarId (App.app (Part000.init seed w))
  = App.editingStarId (App.app w).
Proof.
  split; [apply init_001_idb|].
  split.
  { destruct (init_000_idb seed w) as [-> | ->]; [reflexivity|].
    apply saveGameState_assets. }
  split; [reflexivity|]. split; [reflexivity|].
  assert (H1 : App.tempImages (App.app (Part001.init w))
               = App.tempImages (App.app w) /\
               App.editingStarId (App.app (Part001.init w))
               = App.editingStarId (App.app w)).
  { unfold Part001.init.
    destruct (DB.loadGameState (App.idb w)) as [[[saved|]|] db1];
      try (split; reflexivity).
    destruct (App.restore saved db1) as [[[[st pl] n]|] db2]; split; reflexivity. }
  assert (H0 : App.tempImages (App.app (Part000.init seed w))
               = App.tempImages (App.app w) /\
               App.editingStarId (App.app (Part000.init seed w))
               = App.editingStarId (App.app w)).
  { unfold Part000.init.
    destruct (DB.loadGameState (App.idb w)) as [[[saved|]|] db1];
      try (split; reflexivity).
    - destruct (App.restore saved db1) as [[[[st pl] n]|] db2]; split; reflexivity.
    - destruct (0 <? length (STATIC_STARS seed))%nat; split; reflexivity. }
  destruct H1 as [? ?], H0 as [? ?]. repeat split; assumption.
Qed.

(** ** The restored playlist *)

Lemma reconcileSong_blob `{Env} (store : gmap string Blob) (s : Song.t) :
  reconcileSong store s
  = match song_blob store s with
    | Some b => App.with_url s (createObjectURL b)
    | None => s
    end.
Proof.
  unfold reconcileSong, song_blob.
  destruct (Song.assetId s) as [id|]; [|reflexivity].
  destruct (truthy id); reflexivity.
Qed.

Lemma restored_playlist_omap `{Env} (store : gmap string Blob)
    (l : list Song.t) :
  (forall b, createObjectURL b <> "") ->
  filter (fun s => truthy (Song.url s) = true) (map (reconcileSong store) l)
  = omap (fun s0 =>
            match song_blob store s0 with
            | Some b => Some (App.with_url s0 (createObjectURL b))
            | None => if truthy (Song.url s0) then Some s0 else None
            end) l.
Proof.
  intros Hurl. induction l as [|s0 l IH]; [reflexivity|].
  cbn [map omap list_omap]. rewrite reconcileSong_blob.
  destruct (song_blob store s0) as [b|].
  - rewrite filter_cons_True by (apply truthy_ne; cbn; apply Hurl).
    rewrite IH. reflexivity.
  - destruct (truthy (Song.url s0)) eqn:Ht.
    + rewrite filter_cons_True by exact Ht. rewrite IH. reflexivity.
    + rewrite filter_cons_False by (rewrite Ht; discriminate). exact IH.
Qed.

(** X9. The playlist after a successful restore. When the saved document
    loads and the asset reads go through, the live playlist is the saved
    playlist, song by song in the saved order and with repetitions,
    where a song with a stored asset plays from the object URL of that
    asset, a song without one is kept as it is when its reference is not
    empty, and a song with neither is left out. Each live song keeps its
    id, name and asset identifier, none has an empty reference, and the
    counter is the saved one. *)
Theorem init_restores_playlist `{Env} (seed : Seed) (w : App.World)
    (saved : DB.GameState) :
  idb_fails ReqOpen = false ->
  idb_fails ReqGetState = false ->
  (forall id, idb_fails (ReqGetAsset id) = false) ->
  (forall b, createObjectURL b <> "") ->
  DB.state (App.idb w) !! "current" = Some saved ->
  let live := App.playlist (App.app (Part001.init w)) in
  let store := DB.assets (App.idb w) in
  live
  = omap (fun s0 =>
            match song_blob store s0 with
            | Some b => Some (App.with_url s0 (createObjectURL b))
            | None => if truthy (Song.url s0) then Some s0 else None
            end) (DB.playlist saved) /\
  (forall s : Song.t,
      s ∈ live <->
      exists s0 : Song.t,
        s0 ∈ DB.playlist saved /\
        match song_blob store s0 with
        | Some b => s = App.with_url s0 (createObjectURL b)
        | None => s = s0 /\ Song.url s0 <> ""
        end) /\
  (forall s : Song.t, s ∈ live -> Song.url s <> "") /\
  map Song.id live `sublist_of` map Song.id (DB.playlist saved) /\
  App.playbackCount (App.app (Part001.init w)) = DB.playbackCount saved /\
  App.playlist (App.app (Part000.init seed w)) = live.
Proof.
  intros Ho Hl Hg Hurl Hsaved. cbv zeta.
  rewrite (init_loaded_000 seed w saved) by assumption.
  rewrite (init_loaded_001 w saved) by assumption.
  cbn [App.app App.with_app reconciled App.playlist App.playbackCount
       App.setIsDataLoaded App.setPlaybackCount App.setPlaylist App.setStars].
  split; [apply restored_playlist_omap, Hurl|].
  split; [|split; [|split; [|split; reflexivity]]].
  - intros s. rewrite list_elem_of_filter. split.
    + intros [Ht Hin].
      apply list_elem_of_In, in_map_iff in Hin as (s0 & <- & Hs0).
      exists s0. split; [apply list_elem_of_In, Hs0|].
      rewrite reconcileSong_blob in Ht |- *.
      destruct (song_blob (DB.assets (App.idb w)) s0) as [b|];
        [reflexivity|].
      split; [reflexivity | apply truthy_ne, Ht].
    + intros (s0 & Hs0 & Hs).
      assert (Hrec : reconcileSong (DB.assets (App.idb w)) s0 = s).
      { rewrite reconcileSong_blob.
        destruct (song_blob (DB.assets (App.idb w)) s0) as [b|];
          [symmetry; exact Hs | symmetry; apply Hs]. }
      split.
      * destruct (song_blob (DB.assets (App.idb w)) s0) as [b|].
        -- subst s. apply truthy_ne. cbn. apply Hurl.
        -- destruct Hs as [-> Hne]. apply truthy_ne, Hne.
      * apply list_elem_of_In, in_map_iff. exists s0.
        split; [exact Hrec | apply list_elem_of_In, Hs0].
  - intros s Hs. apply list_elem_of_filter in Hs as [Ht _].
    apply truthy_ne, Ht.
  - change (map Song.id (DB.playlist saved))
      with (Song.id <$> DB.playlist saved).
    assert (Hids : Song.id <$> DB.playlist saved
                   = Song.id <$> (reconcileSong (DB.assets (App.idb w))
                                    <$> DB.playlist saved)).
    { rewrite <- list_fmap_compose. apply list_fmap_ext. intros i s0 _.
      simpl. rewrite reconcileSong_blob.
      destruct (song_blob (DB.assets (App.idb w)) s0); reflexivity. }
    rewrite Hids. apply fmap_sublist, sublist_filter.
Qed.

(** A saved playlist of three: the first song's asset is stored, the
    second has neither a stored asset nor a reference and is left out,
    the third is a static path. *)
Lemma init_restores_playlist_witness :
  map Song.url
    (App.playlist
       (App.app
          (@Part001.init demo_env
             (@App.mount demo_env shipped_seed
                (DB.mkIDB {[ "uuid-3" := "tune" ]}
                   {[ "current" :=
                        DB.mkGameState []
                          [ Song.mk "id0" "tune.mp3" "blob:stale" (Some "uuid-3");
                            Song.mk "id1" "lost.mp3" "" (Some "uuid-9");
                            demo_song "a" ] 4 ]} 1) 0))))
  = ["blob:tune"; "/assets/a"].
Proof.
  destruct (@init_restores_playlist demo_env shipped_seed
              (@App.mount demo_env shipped_seed
                 (DB.mkIDB {[ "uuid-3" := "tune" ]}
                    {[ "current" :=
                         DB.mkGameState []
                           [ Song.mk "id0" "tune.mp3" "blob:stale" (Some "uuid-3");
                             Song.mk "id1" "lost.mp3" "" (Some "uuid-9");
                             demo_song "a" ] 4 ]} 1) 0)
              (DB.mkGameState []
                 [ Song.mk "id0" "tune.mp3" "blob:stale" (Some "uuid-3");
                   Song.mk "id1" "lost.mp3" "" (Some "uuid-9");
                   demo_song "a" ] 4)) as (Hexact & _).
  - reflexivity.
  - reflexivity.
  - intros id. reflexivity.
  - intros b. simpl. discriminate.
  - vm_compute. reflexivity.
  - rewrite Hexact. vm_compute. reflexivity.
Defined.

(** ** Progression within a session *)

Ltac split_handlers :=
  repeat match goal with
         | |- context [match ?x with _ => _ end] => destruct x
         end.

Lemma step_playbackCount `{Env} (export : App.World -> App.World)
    (e : App.Event) (w : App.World) :
  (forall w0, App.app (export w0) = App.app w0 /\
              App.idb (export w0) = App.idb w0) ->
  App.playbackCount (App.app (App.step export e w))
  = App.playbackCount (App.app w)
    + match e with App.SongEnd => 1 | _ => 0 end.
Proof.
  intros Hexp.
  destruct e as [files| |id|id| |files|files|index|t| |newPlaylist|i|];
    cbn [App.step];
    try (destruct (Hexp w) as [-> _]);
    unfold App.handleMusicUpload, App.handleSongEnd, App.handleStarClick,
      App.handleStarView, App.handleLaunchStar, App.handleImageSelect,
      App.handleDrop, App.processFiles, App.removeTempImage,
      App.handlePlaylistUpdate;
    split_handlers; cbn; lia.
Qed.

Lemma run_playbackCount_gen `{Env} (export : App.World -> App.World)
    (es : list App.Event) (w : App.World) :
  (forall w0, App.app (export w0) = App.app w0 /\
              App.idb (export w0) = App.idb w0) ->
  App.playbackCount (App.app (App.run export es w))
  = App.playbackCount (App.app w) + completed_playbacks es.
Proof.
  intros Hexp. revert w. unfold App.run.
  induction es as [|e es IH]; intros w; simpl; [lia|].
  rewrite IH, step_playbackCount by exact Hexp.
  destruct e; lia.
Qed.

Lemma completed_playbacks_nonneg (es : list App.Event) :
  0 <= completed_playbacks es.
Proof.
  induction es as [|e es IH]; simpl; [lia|]. destruct e; lia.
Qed.

Lemma maxPlaylistSize_mono (c c' : Z) :
  c <= c' -> App.maxPlaylistSize c <= App.maxPlaylistSize c'.
Proof.
  intros Hc. unfold App.maxPlaylistSize.
  pose proof (Z.div_le_mono c c' 10 ltac:(lia) Hc). lia.
Qed.

(** X10. The progression counter only grows within a session: after any
    sequence of requests, in either revision, it is the counter before
    plus the number of completed playbacks among them. Hence the playlist
    capacity never shrinks and continuous play, once unlocked, stays
    unlocked. *)
Theorem run_playbackCount `{Env} (es : list App.Event) (w : App.World) :
  let before := App.playbackCount (App.app w) in
  let after := App.playbackCount (App.app (Part001.run es w)) in
  after = before + completed_playbacks es /\
  App.playbackCount (App.app (Part000.run es w)) = after /\
  before <= after /\
  App.maxPlaylistSize before <= App.maxPlaylistSize after /\
  (App.isContinuousPlayUnlocked before = true ->
   App.isContinuousPlayUnlocked after = true).
Proof.
  cbv zeta. unfold Part001.run, Part000.run.
  rewrite !run_playbackCount_gen
    by (apply export_001_inert || apply export_000_inert).
  pose proof (completed_playbacks_nonneg es) as Hn.
  split; [reflexivity|]. split; [reflexivity|]. split; [lia|].
  split; [apply maxPlaylistSize_mono; lia|].
  unfold App.isContinuousPlayUnlocked. rewrite !Z.geb_le. lia.
Qed.

(** X11. The capacity lies between 5 and 10 for every counter that is
    not negative, never exceeds 10, grows with the counter, is 10 exactly
    from counter 50 on, and is therefore at its maximum whenever
    continuous play is unlocked. *)
Theorem maxPlaylistSize_bounds :
  (forall c : Z, App.maxPlaylistSize c <= 10) /\
  (forall c : Z, 0 <= c -> 5 <= App.maxPlaylistSize c) /\
  (forall c c' : Z, c <= c' -> App.maxPlaylistSize c <= App.maxPlaylistSize c') /\
  (forall c : Z, App.maxPlaylistSize c = 10 <-> 50 <= c) /\
  (forall c : Z,
      App.isContinuousPlayUnlocked c = true -> App.maxPlaylistSize c = 10).
Proof.
  assert (Hten : forall c : Z, App.maxPlaylistSize c = 10 <-> 50 <= c).
  { intros c. unfold App.maxPlaylistSize.
    pose proof (Z.div_le_lower_bound c 10 5 ltac:(lia)) as Hlow.
    pose proof (Z.div_lt_upper_bound c 10 5 ltac:(lia)) as Hup.
    split; intros Hc.
    - destruct (Z_lt_le_dec c 50) as [Hlt|Hge]; [|exact Hge].
      specialize (Hup ltac:(lia)). lia.
    - specialize (Hlow ltac:(lia)). lia. }
  split; [intros c; unfold App.maxPlaylistSize; lia|].
  split.
  { intros c Hc. unfold App.maxPlaylistSize.
    pose proof (Z.div_pos c 10 Hc ltac:(lia)). lia. }
  split; [exact maxPlaylistSize_mono|].
  split; [exact Hten|].
  intros c Hc. apply Hten. unfold App.isContinuousPlayUnlocked in Hc.
  apply Z.geb_le in Hc. lia.
Qed.

(** ** Entities are neither created, deleted nor moved *)

Lemma launched_identity (editing : Z) (imgs ids : list string) (txt : string)
    (s : StarData.t) :
  StarData.id (App.launched editing imgs ids txt s) = StarData.id s /\
  StarData.position (App.launched editing imgs ids txt s) = StarData.position s.
Proof. unfold App.launched. destruct (_ =? _); split; reflexivity. Qed.

Lemma viewed_identity (id : Z) (s : StarData.t) :
  StarData.id (App.viewed id s) = StarData.id s /\
  StarData.position (App.viewed id s) = StarData.position s.
Proof. unfold App.viewed. destruct (_ =? _); split; reflexivity. Qed.

Lemma step_identity `{Env} (export : App.World -> App.World) (e : App.Event)
    (w : App.World) :
  (forall w0, App.app (export w0) = App.app w0 /\
              App.idb (export w0) = App.idb w0) ->
  map (fun s => (StarData.id s, StarData.position s))
      (App.stars (App.app (App.step export e w)))
  = map (fun s => (StarData.id s, StarData.position s))
      (App.stars (App.app w)).
Proof.
  intros Hexp.
  destruct e as [files| |id|id| |files|files|index|t| |newPlaylist|i|];
    cbn [App.step]; try reflexivity.
  - destruct (handleMusicUpload_pending files w) as [-> _]. reflexivity.
  - unfold App.handleStarClick. destruct (List.find _ _); reflexivity.
  - cbn. rewrite map_map. apply map_ext. intros s.
    destruct (viewed_identity id s) as [-> ->]. reflexivity.
  - unfold App.handleLaunchStar.
    destruct (App.editingStarId (App.app w)) as [editing|]; [|reflexivity].
    destruct (DB.all _ _) as [[ps|] db1]; [|reflexivity].
    cbn. rewrite map_map. apply map_ext. intros s.
    destruct (launched_identity editing (map fst ps)
                (map (fun p => or_else_undef (snd p) "") ps)
                (App.tempText (App.app w)) s) as [-> ->].
    reflexivity.
  - unfold App.handleImageSelect. destruct files as [fs|]; [|reflexivity].
    destruct (processFiles_admits fs w) as (_ & _ & _ & _ & ->). reflexivity.
  - unfold App.handleDrop. destruct files as [|f fs]; [reflexivity|].
    destruct (processFiles_admits (f :: fs)
                (App.with_app w (App.setDragActive false (App.app w))))
      as (_ & _ & _ & _ & ->).
    reflexivity.
  - destruct (Hexp w) as [-> _]. reflexivity.
Qed.

(** X12. No request creates, deletes, reorders, renumbers or moves a
    star: after any sequence of requests, in either revision, the live
    stars have the ids and positions they had, in the same order. *)
Theorem run_keeps_entities `{Env} (es : list App.Event) (w : App.World) :
  map (fun s => (StarData.id s, StarData.position s))
      (App.stars (App.app (Part001.run es w)))
  = map (fun s => (StarData.id s, StarData.position s))
      (App.stars (App.app w)) /\
  map (fun s => (StarData.id s, StarData.position s))
      (App.stars (App.app (Part000.run es w)))
  = map (fun s => (StarData.id s, StarData.position s))
      (App.stars (App.app w)) /\
  length (App.stars (App.app (Part001.run es w)))
  = length (App.stars (App.app w)).
Proof.
  assert (Hgen : forall export,
             (forall w0, App.app (export w0) = App.app w0 /\
                         App.idb (export w0) = App.idb w0) ->
             forall w0,
               map (fun s => (StarData.id s, StarData.position s))
                   (App.stars (App.app (App.run export es w0)))
               = map (fun s => (StarData.id s, StarData.position s))
                   (App.stars (App.app w0))).
  { intros export Hexp. unfold App.run.
    induction es as [|e es IH]; intros w0; [reflexivity|].
    simpl. rewrite IH. apply step_identity, Hexp. }
  pose proof (Hgen Part001.handleExportData export_001_inert w) as H1.
  pose proof (Hgen Part000.handleExportData export_000_inert w) as H0.
  split; [exact H1|]. split; [exact H0|].
  apply (f_equal (@length _)) in H1. rewrite !length_map in H1. exact H1.
Qed.

(** ** Launching a star *)

(** The outcome of a launch, given what processing the pending images
    gave. *)
Lemma handleLaunchStar_resolved `{Env} (w : App.World) (editing : Z)
    (ps : list (string * option string)) (db1 : DB.IDB) :
  App.editingStarId (App.app w) = Some editing ->
  DB.all (map App.processImage (App.tempImages (App.app w))) (App.idb w)
  = (Resolved ps, db1) ->
  let newStars :=
    map (App.launched editing (map App.url (App.tempImages (App.app w)))
           (map (fun p => or_else_undef (snd p) "") ps)
           (App.tempText (App.app w)))
        (App.stars (App.app w)) in
  App.handleLaunchStar w
  = App.saveGame newStars (App.playlist (App.app w))
      (App.playbackCount (App.app w))
      (App.with_app (App.with_idb w db1)
         (App.setUploadModalOpen false
            (App.setEditingStarId None
               (App.setTempText ""
                  (App.setTempImages [] (App.setStars newStars (App.app w))))))).
Proof.
  intros Hed Hall. cbv zeta. unfold App.handleLaunchStar.
  rewrite Hed, Hall, (processImages_urls _ _ _ _ Hall). reflexivity.
Qed.

(** X13. A launch that stores its files: every star with the edited id
    becomes active with the pending images as its images, one identifier
    per image, the pending text, and a view counter of zero, keeping its
    id and position; every other star, the playlist and the counter are
    unchanged; the form is cleared and closed; no alert is shown; and the
    document handed to the store is this new model. *)
Theorem handleLaunchStar_effect `{Env} (w : App.World) (editing : Z)
    (ps : list (string * option string)) (db1 : DB.IDB) :
  App.editingStarId (App.app w) = Some editing ->
  DB.all (map App.processImage (App.tempImages (App.app w))) (App.idb w)
  = (Resolved ps, db1) ->
  let w' := App.handleLaunchStar w in
  let old := App.stars (App.app w) in
  let new := App.stars (App.app w') in
  length new = length old /\
  (forall (i : nat) (s : StarData.t),
      nth_error old i = Some s ->
      exists s' : StarData.t,
        nth_error new i = Some s' /\
        if StarData.id s =? editing then
          s' = StarData.mk (StarData.id s) (StarData.position s)
                 (map App.url (App.tempImages (App.app w)))
                 (Some (map (fun p => or_else_undef (snd p) "") ps))
                 (Some (App.tempText (App.app w))) true 0 /\
          length ps = length (App.tempImages (App.app w))
        else s' = s) /\
  App.playlist (App.app w') = App.playlist (App.app w) /\
  App.playbackCount (App.app w') = App.playbackCount (App.app w) /\
  App.tempImages (App.app w') = [] /\
  App.tempText (App.app w') = "" /\
  App.editingStarId (App.app w') = None /\
  App.isUploadModalOpen (App.app w') = false /\
  App.alerts w' = App.alerts w /\
  App.idb w'
  = snd (DB.saveGameState
           (DB.mkGameState new (App.playlist (App.app w))
              (App.playbackCount (App.app w))) db1).
Proof.
  intros Hed Hall. cbv zeta.
  rewrite (handleLaunchStar_resolved w editing ps db1 Hed Hall).
  cbn [App.saveGame App.app App.with_idb App.with_app App.idb App.alerts
       App.stars App.playlist App.playbackCount App.tempImages App.tempText
       App.editingStarId App.isUploadModalOpen App.setUploadModalOpen
       App.setEditingStarId App.setTempText App.setTempImages App.setStars].
  split; [apply length_map|].
  split; [|repeat split].
  intros i s Hs. eexists. split; [rewrite nth_error_map, Hs; reflexivity|].
  unfold App.launched. destruct (StarData.id s =? editing); [|reflexivity].
  split; [reflexivity|].
  rewrite <- (length_map fst ps), (processImages_urls _ _ _ _ Hall).
  apply length_map.
Qed.

(** In [editing_world] star 1 is launched with its stored image and a
    new photo. *)
Lemma handleLaunchStar_effect_witness :
  exists s' : StarData.t,
    nth_error
      (App.stars (App.app (@App.handleLaunchStar demo_env editing_world))) 1
    = Some s' /\
    s' = StarData.mk 1 origin ["blob:old"; "blob:new"]
           (Some ["uuid-0"; "uuid-1"]) (Some "after") true 0.
Proof.
  destruct (@handleLaunchStar_effect demo_env editing_world 1
              [("blob:old", Some "uuid-0"); ("blob:new", Some "uuid-1")]
              (DB.mkIDB {[ "uuid-0" := "old"; "uuid-1" := "new" ]} ∅ 2))
    as (_ & Hstars & _).
  - reflexivity.
  - vm_compute. reflexivity.
  - destruct (Hstars 1%nat
                (StarData.mk 1 origin ["blob:old"] (Some ["uuid-0"])
                   (Some "before") true 5) eq_refl) as (s1 & Hs1 & Heq & _).
    exists s1. split; [exact Hs1 | exact Heq].
Defined.

(** X14. A launch whose file cannot be stored: when processing the
    pending images rejects, the failure message is shown and nothing
    else of the component changes (the pending images, text and edited
    star are kept, the stars are as before), and no document is
    written. *)
Theorem handleLaunchStar_rejected `{Env} (w : App.World) (editing : Z) :
  App.editingStarId (App.app w) = Some editing ->
  fst (DB.all (map App.processImage (App.tempImages (App.app w))) (App.idb w))
  = Rejected ->
  let w' := App.handleLaunchStar w in
  App.app w' = App.app w /\
  App.alerts w' = App.alerts w ++ [App.launch_failed_msg] /\
  DB.state (App.idb w') = DB.state (App.idb w).
Proof.
  intros Hed Hrej. cbv zeta. unfold App.handleLaunchStar. rewrite Hed.
  pose proof (processImages_state (App.tempImages (App.app w)) (App.idb w))
    as Hstate.
  destruct (DB.all (map App.processImage (App.tempImages (App.app w)))
              (App.idb w)) as [[ps|] db1]; [discriminate|].
  simpl in Hstate. repeat split. exact Hstate.
Qed.

Lemma handleLaunchStar_rejected_witness :
  App.app (@App.handleLaunchStar offline_env editing_world)
  = App.app editing_world /\
  App.alerts (@App.handleLaunchStar offline_env editing_world)
  = [App.launch_failed_msg].
Proof.
  destruct (@handleLaunchStar_rejected offline_env editing_world 1)
    as (Happ & Hal & _); [reflexivity | reflexivity |].
  split; [exact Happ | exact Hal].
Defined.

Lemma processImages_no_files `{Env} (imgs : list App.TempImage) (db : DB.IDB) :
  Forall (fun t => App.file t = None) imgs ->
  DB.all (map App.processImage imgs) db
  = (Resolved (map (fun t => (App.url t, App.assetId t)) imgs), db).
Proof.
  intros Hnone. apply all_map_resolved. intros t Ht.
  rewrite Forall_forall in Hnone.
  unfold App.processImage. rewrite (Hnone t (proj2 (list_elem_of_In _ _) Ht)).
  reflexivity.
Qed.

(** X15. A launch that adds no new file cannot fail, whatever the state
    of the store: with no pending image carrying a file, no alert is
    shown and the stars with the edited id take the pending references
    and their identifiers (the empty string where there is none). *)
Theorem handleLaunchStar_no_files `{Env} (w : App.World) (editing : Z) :
  App.editingStarId (App.app w) = Some editing ->
  Forall (fun t => App.file t = None) (App.tempImages (App.app w)) ->
  let w' := App.handleLaunchStar w in
  App.alerts w' = App.alerts w /\
  App.stars (App.app w')
  = map (App.launched editing
           (map App.url (App.tempImages (App.app w)))
           (map (fun t => or_else_undef (App.assetId t) "")
              (App.tempImages (App.app w)))
           (App.tempText (App.app w)))
        (App.stars (App.app w)) /\
  DB.assets (App.idb w') = DB.assets (App.idb w) /\
  App.tempImages (App.app w') = [] /\
  App.editingStarId (App.app w') = None.
Proof.
  intros Hed Hnone. cbv zeta.
  rewrite (handleLaunchStar_resolved w editing _ _ Hed
             (processImages_no_files _ (App.idb w) Hnone)).
  cbn [App.saveGame App.app App.with_idb App.with_app App.idb App.alerts
       App.stars App.tempImages App.editingStarId App.setUploadModalOpen
       App.setEditingStarId App.setTempText App.setTempImages App.setStars].
  rewrite saveGameState_assets, map_map. repeat split.
Qed.

Lemma handleLaunchStar_no_files_witness :
  App.alerts
    (@App.handleLaunchStar offline_env
       (@App.handleStarClick 1 editing_world)) = [].
Proof.
  destruct (@handleLaunchStar_no_files offline_env
              (@App.handleStarClick 1 editing_world) 1) as (Hal & _).
  - reflexivity.
  - repeat constructor.
  - exact Hal.
Defined.

(** ** Uploading a song *)

(** X16. An upload below capacity, with the requests going through:
    the file is stored under the identifier drawn for it; a song with
    the file's name, an object URL and that identifier is appended and
    becomes the current song; the playlist is still within capacity; the
    stars and the counter are unchanged, no alert is shown, and the
    stored document is the new model. *)
Theorem handleMusicUpload_appends `{Env} (w : App.World) (file : File)
    (files : list File) :
  Z.of_nat (length (App.playlist (App.app w)))
    < App.maxPlaylistSize (App.playbackCount (App.app w)) ->
  idb_fails ReqOpen = false ->
  idb_fails (ReqPutAsset (randomUUID (DB.drawn (App.idb w)))) = false ->
  idb_fails ReqPutState = false ->
  let w' := App.handleMusicUpload (file :: files) w in
  let newSong :=
    Song.mk (generateId (App.rng w)) (file_name file)
      (createObjectURL (file_blob file))
      (Some (randomUUID (DB.drawn (App.idb w)))) in
  App.playlist (App.app w') = App.playlist (App.app w) ++ [newSong] /\
  App.currentSongIndex (App.app w')
  = Z.of_nat (length (App.playlist (App.app w))) /\
  Z.of_nat (length (App.playlist (App.app w')))
    <= App.maxPlaylistSize (App.playbackCount (App.app w')) /\
  DB.assets (App.idb w') !! randomUUID (DB.drawn (App.idb w))
  = Some (file_blob file) /\
  DB.state (App.idb w') !! "current"
  = Some (DB.mkGameState (App.stars (App.app w))
            (App.playlist (App.app w) ++ [newSong])
            (App.playbackCount (App.app w))) /\
  App.stars (App.app w') = App.stars (App.app w) /\
  App.playbackCount (App.app w') = App.playbackCount (App.app w) /\
  App.alerts w' = App.alerts w.
Proof.
  intros Hroom Ho Hp Hs. cbv zeta. unfold App.handleMusicUpload.
  destruct (Z.geb_spec (Z.of_nat (length (App.playlist (App.app w))))
              (App.maxPlaylistSize (App.playbackCount (App.app w))));
    [lia|].
  unfold DB.saveAsset, DB.bind, DB.openDB, DB.request_. rewrite Ho, Hp.
  unfold App.saveGame. cbn [App.idb App.with_idb].
  rewrite saveGameState_ok by assumption.
  cbn [snd App.app App.idb App.alerts App.playlist App.stars
       App.with_idb App.with_app
       App.playbackCount App.currentSongIndex App.setCurrentSongIndex
       App.setPlaylist DB.assets DB.state].
  rewrite !lookup_insert_eq, length_app. cbn [length].
  repeat split; try reflexivity; lia.
Qed.

Lemma handleMusicUpload_appends_witness :
  map Song.name
    (App.playlist (App.app (@App.handleMusicUpload demo_env [demo_file] roomy_world)))
  = ["a"; "b"; "c"; "d"; "e"; "f"; "h.mp3"].
Proof.
  destruct (@handleMusicUpload_appends demo_env roomy_world demo_file [])
    as (Hpl & _).
  - vm_compute. reflexivity.
  - reflexivity.
  - reflexivity.
  - reflexivity.
  - rewrite Hpl. reflexivity.
Defined.

(** X17. An uploaded song survives a restart. After the upload of X16,
    a new startup on the resulting database, with the reads going
    through and neither object URLs nor identifiers empty, has the
    uploaded song in its live playlist, playing from the object URL of
    the stored file. *)
Theorem uploaded_song_survives_restart `{Env} (w : App.World) (file : File)
    (files : list File) (seed : Seed) (r : nat) :
  Z.of_nat (length (App.playlist (App.app w)))
    < App.maxPlaylistSize (App.playbackCount (App.app w)) ->
  idb_fails ReqOpen = false ->
  idb_fails (ReqPutAsset (randomUUID (DB.drawn (App.idb w)))) = false ->
  idb_fails ReqPutState = false ->
  idb_fails ReqGetState = false ->
  (forall id, idb_fails (ReqGetAsset id) = false) ->
  (forall b, createObjectURL b <> "") ->
  randomUUID (DB.drawn (App.idb w)) <> "" ->
  let db' := App.idb (App.handleMusicUpload (file :: files) w) in
  Song.mk (generateId (App.rng w)) (file_name file)
    (createObjectURL (file_blob file))
    (Some (randomUUID (DB.drawn (App.idb w))))
  ∈ App.playlist (App.app (Part001.init (App.mount seed db' r))).
Proof.
  intros Hroom Ho Hp Hs Hg Hga Hurl Hid. cbv zeta.
  set (newSong := Song.mk (generateId (App.rng w)) (file_name file)
                    (createObjectURL (file_blob file))
                    (Some (randomUUID (DB.drawn (App.idb w))))).
  assert (Hw' : App.idb (App.handleMusicUpload (file :: files) w)
                = DB.mkIDB
                    (<[randomUUID (DB.drawn (App.idb w)) := file_blob file]>
                       (DB.assets (App.idb w)))
                    (<["current" :=
                         DB.mkGameState (App.stars (App.app w))
                           (App.playlist (App.app w) ++ [newSong])
                           (App.playbackCount (App.app w))]>
                       (DB.state (App.idb w)))
                    (S (DB.drawn (App.idb w)))).
  { unfold App.handleMusicUpload.
    destruct (Z.geb_spec (Z.of_nat (length (App.playlist (App.app w))))
                (App.maxPlaylistSize (App.playbackCount (App.app w))));
      [lia|].
    unfold DB.saveAsset, DB.bind, DB.openDB, DB.request_. rewrite Ho, Hp.
    unfold App.saveGame. cbn [App.idb App.with_idb].
    rewrite saveGameState_ok by assumption. reflexivity. }
  rewrite Hw'.
  rewrite (init_loaded_001 _
             (DB.mkGameState (App.stars (App.app w))
                (App.playlist (App.app w) ++ [newSong])
                (App.playbackCount (App.app w))))
    by (try assumption; apply lookup_insert_eq).
  cbn [App.app App.with_app reconciled App.playlist App.setIsDataLoaded
       App.setPlaybackCount App.setPlaylist App.setStars DB.playlist].
  apply list_elem_of_filter. split.
  - apply truthy_ne. cbn. apply Hurl.
  - apply list_elem_of_In, in_map_iff. exists newSong. split.
    + rewrite reconcileSong_blob. unfold song_blob. cbn [Song.assetId newSong].
      destruct (truthy (randomUUID (DB.drawn (App.idb w)))) eqn:Ht;
        [|apply truthy_ne in Hid; congruence].
      unfold App.mount. cbn [App.idb DB.assets].
      rewrite lookup_insert_eq. reflexivity.
    + apply in_or_app. right. left. reflexivity.
Qed.

Lemma uploaded_song_survives_restart_witness :
  Song.mk "id0" "h.mp3" "blob:bytes" (Some "uuid-0")
  ∈ App.playlist
      (App.app
         (@Part001.init demo_env
            (@App.mount demo_env shipped_seed
               (App.idb (@App.handleMusicUpload demo_env [demo_file] roomy_world))
               0))).
Proof.
  apply (@uploaded_song_survives_restart demo_env roomy_world demo_file []
           shipped_seed 0%nat).
  - vm_compute. reflexivity.
  - reflexivity.
  - reflexivity.
  - reflexivity.
  - reflexivity.
  - intros id. reflexivity.
  - intros b. simpl. discriminate.
  - simpl. discriminate.
Defined.

(** ** The console export of the first revision *)

Lemma placeholder_not_blob :
  startsWith "blob:" "/assets/REPLACE_WITH_YOUR_FILENAME.jpg" = false.
Proof. reflexivity. Qed.

(** X18. The console export never contains an object URL. It logs one
    snapshot, with one entry per star and per song, in order: an image
    reference that is an object URL becomes the fixed placeholder path,
    a song reference that is an object URL becomes [/assets/] followed
    by the song's name, any other reference is kept as it is, no entry
    carries an asset identifier, and ids, text, flags, view counts and
    names are kept. The alert is shown; neither the component state nor
    the database changes. *)
Theorem export_000_no_object_urls (w : App.World) :
  let w' := Part000.handleExportData w in
  exists out : Seed,
    App.console w' = App.console w ++ [out] /\
    App.alerts w' = App.alerts w ++ [Part000.export_msg] /\
    App.app w' = App.app w /\
    App.idb w' = App.idb w /\
    length (STATIC_STARS out) = length (App.stars (App.app w)) /\
    length (STATIC_PLAYLIST out) = length (App.playlist (App.app w)) /\
    INITIAL_PLAYBACK_COUNT out = App.playbackCount (App.app w) /\
    (forall (n : nat) (s : StarData.t),
        App.stars (App.app w) !! n = Some s ->
        exists s' : StarData.t,
          STATIC_STARS out !! n = Some s' /\
          StarData.imageAssetIds s' = None /\
          StarData.id s' = StarData.id s /\
          StarData.text s' = StarData.text s /\
          StarData.isActive s' = StarData.isActive s /\
          StarData.viewCount s' = StarData.viewCount s /\
          length (StarData.images s') = length (StarData.images s) /\
          (forall (i : nat) (u : string),
              StarData.images s !! i = Some u ->
              StarData.images s' !! i
              = Some (if startsWith "blob:" u
                      then "/assets/REPLACE_WITH_YOUR_FILENAME.jpg" else u)) /\
          (forall u : string,
              u ∈ StarData.images s' -> startsWith "blob:" u = false)) /\
    (forall (n : nat) (s : Song.t),
        App.playlist (App.app w) !! n = Some s ->
        exists s' : Song.t,
          STATIC_PLAYLIST out !! n = Some s' /\
          Song.assetId s' = None /\
          Song.id s' = Song.id s /\
          Song.name s' = Song.name s /\
          Song.url s'
          = (if startsWith "blob:" (Song.url s)
             then "/assets/" +:+ Song.name s else Song.url s) /\
          startsWith "blob:" (Song.url s') = false).
Proof.
  cbv zeta. unfold Part000.handleExportData. eexists.
  cbn [App.alert App.console App.alerts App.app App.idb].
  split; [reflexivity|].
  cbn [STATIC_STARS STATIC_PLAYLIST INITIAL_PLAYBACK_COUNT].
  rewrite !length_map. repeat (split; [reflexivity|]).
  split.
  - intros n s Hs.
    set (f := fun s0 : StarData.t =>
                App.without_ids s0
                  (map (fun img : string =>
                          if startsWith "blob:" img
                          then "/assets/REPLACE_WITH_YOUR_FILENAME.jpg"
                          else img) (StarData.images s0))).
    exists (f s). split.
    { change (map f (App.stars (App.app w))) with (f <$> App.stars (App.app w)).
      rewrite list_lookup_fmap, Hs. reflexivity. }
    repeat (split; [reflexivity|]).
    split; [apply length_map|]. split.
    + intros i u Hu. subst f. cbn [StarData.images App.without_ids].
      match goal with
      | |- map ?g ?l !! i = _ => change (map g l) with (g <$> l)
      end.
      rewrite list_lookup_fmap, Hu. reflexivity.
    + intros u Hu. subst f. cbn [StarData.images App.without_ids] in Hu.
      apply list_elem_of_In, in_map_iff in Hu as (u0 & <- & _).
      destruct (startsWith "blob:" u0) eqn:Hb; [reflexivity | exact Hb].
  - intros n s Hs.
    set (g := fun s0 : Song.t =>
                Song.mk (Song.id s0) (Song.name s0)
                  (if startsWith "blob:" (Song.url s0)
                   then "/assets/" +:+ Song.name s0 else Song.url s0) None).
    exists (g s). split.
    { change (map g (App.playlist (App.app w)))
        with (g <$> App.playlist (App.app w)).
      rewrite list_lookup_fmap, Hs. reflexivity. }
    repeat (split; [reflexivity|]).
    subst g. cbn [Song.url].
    destruct (startsWith "blob:" (Song.url s)) eqn:Hb;
      [reflexivity | exact Hb].
Qed.

(** ** The inline export of the second revision *)

Lemma urlToBase64_idempotent `{Env} (u : string) :
  (forall v d, fetchDataURL v = Resolved d -> startsWith "data:" d = true) ->
  Part001.urlToBase64 (Part001.urlToBase64 u) = Part001.urlToBase64 u.
Proof.
  intros Hdata. unfold Part001.urlToBase64 at 2 3.
  destruct (startsWith "data:" u) eqn:Hu.
  - unfold Part001.urlToBase64. rewrite Hu. reflexivity.
  - destruct (fetchDataURL u) as [d|] eqn:Hf.
    + unfold Part001.urlToBase64. rewrite (Hdata u d Hf). reflexivity.
    + unfold Part001.urlToBase64. rewrite Hu, Hf. reflexivity.
Qed.

Lemma cleanStar_idempotent `{Env} (s : StarData.t) :
  (forall v d, fetchDataURL v = Resolved d -> startsWith "data:" d = true) ->
  Part001.cleanStar (Part001.cleanStar s) = Part001.cleanStar s.
Proof.
  intros Hdata. unfold Part001.cleanStar, App.without_ids.
  cbn [StarData.id StarData.position StarData.images StarData.text
       StarData.isActive StarData.viewCount].
  rewrite map_map. f_equal.
  apply map_ext. intros u. apply urlToBase64_idempotent, Hdata.
Qed.

Lemma cleanSong_idempotent `{Env} (s : Song.t) :
  (forall v d, fetchDataURL v = Resolved d -> startsWith "data:" d = true) ->
  Part001.cleanSong (Part001.cleanSong s) = Part001.cleanSong s.
Proof.
  intros Hdata.
  assert (Hc : forall s0, Part001.cleanSong s0
                          = Song.mk (Song.id s0) (Song.name s0)
                              (Part001.urlToBase64 (Song.url s0)) None).
  { intros s0. unfold Part001.cleanSong, Part001.urlToBase64.
    destruct (startsWith "data:" (Song.url s0)); reflexivity. }
  rewrite !Hc. cbn [Song.id Song.name Song.url].
  rewrite urlToBase64_idempotent by exact Hdata. reflexivity.
Qed.

(** X19. An exported snapshot is a fixed point of the export. Let every
    successful fetch yield an inline ([data:]) encoding. If the text
    exported from a live model with at least one star is installed as
    the seed, then on a first run (no saved document) the export made
    right after startup is that same text. *)
Theorem export_fixed_point `{Env} (st : App.State) (db : DB.IDB) (r : nat) :
  (forall v d, fetchDataURL v = Resolved d -> startsWith "data:" d = true) ->
  App.stars st <> [] ->
  DB.state db !! "current" = None ->
  clipboard_rejects = false ->
  let out := Part001.exportString st in
  App.clipboard
    (Part001.handleExportData (Part001.init (App.mount out db r)))
  = Some out.
Proof.
  intros Hdata Hne Hnone Hclip. cbv zeta.
  assert (Hout : STATIC_STARS (Part001.exportString st) <> []).
  { unfold Part001.exportString. cbn [STATIC_STARS].
    destruct (App.stars st); [congruence | discriminate]. }
  destruct (init_001_first_run (App.mount (Part001.exportString st) db r))
    as [_ Happ]; [rewrite mount_seed by exact Hout; exact Hnone|].
  unfold Part001.handleExportData. rewrite Hclip.
  cbn [App.clipboard App.alert]. rewrite Happ, mount_seed by exact Hout.
  f_equal. unfold Part001.exportString.
  cbn [App.app App.stars App.playlist App.playbackCount App.setIsDataLoaded
       STATIC_STARS STATIC_PLAYLIST INITIAL_PLAYBACK_COUNT].
  rewrite !map_map. f_equal.
  - apply map_ext. intros s. apply cleanStar_idempotent, Hdata.
  - apply map_ext. intros s. apply cleanSong_idempotent, Hdata.
Qed.

Lemma export_fixed_point_witness :
  App.clipboard
    (@Part001.handleExportData demo_env
       (@Part001.init demo_env
          (@App.mount demo_env
             (@Part001.exportString demo_env (App.app export_world))
             DB.empty 0)))
  = Some (@Part001.exportString demo_env (App.app export_world)).
Proof.
  apply (@export_fixed_point demo_env (App.app export_world) DB.empty 0%nat).
  - intros v d. unfold fetchDataURL, demo_env.
    destruct (startsWith "blob:" v); [|discriminate].
    intros [= <-]. reflexivity.
  - discriminate.
  - reflexivity.
  - reflexivity.
Defined.

(** ** Opening a star and launching it again *)

Lemma existingImages_no_files (star : StarData.t) :
  Forall (fun t => App.file t = None) (App.existingImages star).
Proof.
  apply Forall_forall. intros t Ht. unfold App.existingImages in Ht.
  apply elem_of_lookup_imap_1 in Ht as (i & u & -> & _). reflexivity.
Qed.

Lemma existingImages_urls (star : StarData.t) :
  map App.url (App.existingImages star) = StarData.images star.
Proof.
  unfold App.existingImages. apply list_eq. intros i.
  change (map App.url ?l) with (App.url <$> l).
  rewrite list_lookup_fmap, list_lookup_imap.
  destruct (StarData.images star !! i); reflexivity.
Qed.

(** X20. Opening a star pre-fills the form from the first star with that
    id: one pending image per image, paired by index with the star's
    identifiers, and its text (empty when it has none); the stars and
    the database are untouched. Launching it again without any edit
    shows no alert, whatever the state of the store, and leaves every
    star with that id active with those same images, as many
    identifiers, that text, and a view counter of zero; the other stars
    are unchanged. *)
Theorem handleStarClick_relaunch `{Env} (id : Z) (w : App.World)
    (star : StarData.t) :
  List.find (fun s => StarData.id s =? id) (App.stars (App.app w)) = Some star ->
  let w1 := App.handleStarClick id w in
  let w2 := App.handleLaunchStar w1 in
  App.tempImages (App.app w1) = App.existingImages star /\
  map App.url (App.tempImages (App.app w1)) = StarData.images star /\
  (forall (j : nat) (t : App.TempImage),
      App.tempImages (App.app w1) !! j = Some t ->
      App.file t = None /\
      App.assetId t = default [] (StarData.imageAssetIds star) !! j) /\
  App.tempText (App.app w1) = or_else_undef (StarData.text star) "" /\
  App.editingStarId (App.app w1) = Some id /\
  App.isUploadModalOpen (App.app w1) = true /\
  App.stars (App.app w1) = App.stars (App.app w) /\
  App.idb w1 = App.idb w /\
  App.alerts w2 = App.alerts w /\
  (forall (i : nat) (s : StarData.t),
      nth_error (App.stars (App.app w)) i = Some s ->
      exists s' : StarData.t,
        nth_error (App.stars (App.app w2)) i = Some s' /\
        if StarData.id s =? id then
          StarData.images s' = StarData.images star /\
          (exists ids : list string,
              StarData.imageAssetIds s' = Some ids /\
              length ids = length (StarData.images star)) /\
          StarData.text s' = Some (or_else_undef (StarData.text star) "") /\
          StarData.isActive s' = true /\
          StarData.viewCount s' = 0 /\
          StarData.id s' = StarData.id s /\
          StarData.position s' = StarData.position s
        else s' = s).
Proof.
  intros Hfind. cbv zeta.
  assert (Hw1 : App.handleStarClick id w
                = App.with_app w
                    (App.setUploadModalOpen true
                       (App.setTempText (or_else_undef (StarData.text star) "")
                          (App.setTempImages (App.existingImages star)
                             (App.setEditingStarId (Some id) (App.app w)))))).
  { unfold App.handleStarClick. rewrite Hfind. reflexivity. }
  rewrite Hw1.
  split; [reflexivity|]. split; [apply existingImages_urls|].
  split.
  { intros j t Ht. cbn in Ht. unfold App.existingImages in Ht.
    rewrite list_lookup_imap in Ht.
    destruct (StarData.images star !! j) as [u|]; [|discriminate].
    injection Ht as <-. cbn.
    split; [reflexivity|]. destruct (StarData.imageAssetIds star); reflexivity. }
  repeat (split; [reflexivity|]).
  match goal with
  | |- context [App.handleLaunchStar ?w1] =>
      pose proof (handleLaunchStar_resolved w1 id _ _ eq_refl
                    (processImages_no_files _ (App.idb w1)
                       (existingImages_no_files star))) as Hl
  end.
  cbv zeta in Hl. rewrite Hl. clear Hl.
  cbn [App.saveGame App.app App.with_idb App.with_app App.idb App.alerts
       App.stars App.tempImages App.tempText App.setUploadModalOpen
       App.setEditingStarId App.setTempText App.setTempImages App.setStars].
  split; [reflexivity|].
  intros i s Hs. eexists. split; [rewrite nth_error_map, Hs; reflexivity|].
  unfold App.launched. destruct (StarData.id s =? id); [|reflexivity].
  cbn. rewrite existingImages_urls.
  split; [reflexivity|]. split; [|repeat split].
  eexists. split; [reflexivity|].
  rewrite !length_map. unfold App.existingImages. apply length_imap.
Qed.

Lemma handleStarClick_relaunch_witness :
  exists s' : StarData.t,
    nth_error
      (App.stars
         (App.app
            (@App.handleLaunchStar offline_env
               (App.handleStarClick 2
                  (App.with_app loaded_world
                     (App.setStars (DB.stars loaded_doc)
                        (App.app loaded_world)))))))
      2 = Some s' /\
    StarData.images s' = ["blob:stale"] /\
    StarData.viewCount s' = 0.
Proof.
  destruct (@handleStarClick_relaunch offline_env 2
              (App.with_app loaded_world
                 (App.setStars (DB.stars loaded_doc) (App.app loaded_world)))
              (StarData.mk 2 origin ["blob:stale"] (Some ["uuid-0"])
                 (Some "hi") true 3) eq_refl)
    as (_ & _ & _ & _ & _ & _ & _ & _ & _ & Hstars).
  destruct (Hstars 2%nat _ eq_refl) as (s' & Hs' & Hi & _ & _ & _ & Hv & _).
  exists s'. repeat split; assumption.
Defined.

(** ** Assets are never removed *)

Lemma saveAsset_keeps `{Env} (b : Blob) (db : DB.IDB) (id : string) :
  is_Some (DB.assets db !! id) ->
  is_Some (DB.assets (snd (DB.saveAsset b db)) !! id).
Proof.
  intros Hid. unfold DB.saveAsset, DB.bind, DB.openDB, DB.request_.
  destruct (idb_fails ReqOpen); [exact Hid|].
  destruct (idb_fails (ReqPutAsset _)); [exact Hid|].
  cbn. apply lookup_insert_is_Some'. right. exact Hid.
Qed.

Lemma processImages_keep `{Env} (imgs : list App.TempImage) (db : DB.IDB)
    (id : string) :
  is_Some (DB.assets db !! id) ->
  is_Some (DB.assets (snd (DB.all (map App.processImage imgs) db)) !! id).
Proof.
  revert db. induction imgs as [|img imgs IH]; intros db Hid; [exact Hid|].
  simpl.
  assert (H1 : is_Some (DB.assets (snd (App.processImage img db)) !! id)).
  { unfold App.processImage. destruct (App.file img) as [f|]; [|exact Hid].
    unfold DB.bind. pose proof (saveAsset_keeps (file_blob f) db id Hid) as Hk.
    destruct (DB.saveAsset (file_blob f) db) as [[a|] db1]; exact Hk. }
  destruct (App.processImage img db) as [r db1]. simpl in H1.
  specialize (IH db1 H1).
  destruct (DB.all (map App.processImage imgs) db1) as [rs db2].
  destruct r, rs; exact IH.
Qed.

Lemma step_keeps_asset `{Env} (export : App.World -> App.World)
    (e : App.Event) (w : App.World) (id : string) :
  (forall w0, App.app (export w0) = App.app w0 /\
              App.idb (export w0) = App.idb w0) ->
  is_Some (DB.assets (App.idb w) !! id) ->
  is_Some (DB.assets (App.idb (App.step export e w)) !! id).
Proof.
  intros Hexp Hid.
  destruct e as [files| |ident|ident| |files|files|index|t| |newPlaylist|i|];
    cbn [App.step]; try exact Hid.
  - unfold App.handleMusicUpload. destruct files as [|file files]; [exact Hid|].
    destruct (_ >=? _); [exact Hid|].
    pose proof (saveAsset_keeps (file_blob file) (App.idb w) id Hid) as Hk.
    destruct (DB.saveAsset (file_blob file) (App.idb w)) as [[a|] db1];
      simpl in Hk; [|exact Hk].
    unfold App.saveGame. cbn [App.idb App.with_idb].
    rewrite saveGameState_assets. exact Hk.
  - unfold App.handleSongEnd, App.saveGame. cbn [App.idb App.with_idb App.with_app].
    rewrite saveGameState_assets. exact Hid.
  - unfold App.handleStarClick. destruct (List.find _ _); exact Hid.
  - unfold App.handleStarView, App.saveGame. cbn [App.idb App.with_idb App.with_app].
    rewrite saveGameState_assets. exact Hid.
  - unfold App.handleLaunchStar.
    destruct (App.editingStarId (App.app w)) as [editing|]; [|exact Hid].
    pose proof (processImages_keep (App.tempImages (App.app w)) (App.idb w)
                  id Hid) as Hk.
    destruct (DB.all (map App.processImage (App.tempImages (App.app w)))
                (App.idb w)) as [[ps|] db1]; simpl in Hk; [|exact Hk].
    unfold App.saveGame. cbn [App.idb App.with_idb App.with_app].
    rewrite saveGameState_assets. exact Hk.
  - unfold App.handleImageSelect. destruct files as [fs|]; [|exact Hid].
    unfold App.processFiles. destruct (_ <=? 0); exact Hid.
  - unfold App.handleDrop. destruct files as [|f fs]; [exact Hid|].
    unfold App.processFiles. destruct (_ <=? 0); exact Hid.
  - unfold App.handlePlaylistUpdate, App.saveGame.
    cbn [App.idb App.with_idb App.with_app].
    rewrite saveGameState_assets. exact Hid.
  - destruct (Hexp w) as [_ ->]. exact Hid.
Qed.

Lemma run_keeps_asset `{Env} (export : App.World -> App.World)
    (es : list App.Event) (w : App.World) (id : string) :
  (forall w0, App.app (export w0) = App.app w0 /\
              App.idb (export w0) = App.idb w0) ->
  is_Some (DB.assets (App.idb w) !! id) ->
  is_Some (DB.assets (App.idb (App.run export es w)) !! id).
Proof.
  intros Hexp. revert w. unfold App.run.
  induction es as [|e es IH]; intros w Hid; [exact Hid|].
  simpl. apply IH, step_keeps_asset; assumption.
Qed.

(** X21. The application never removes an asset: an identifier that is
    stored when a session starts is still stored when it ends, in either
    revision, whatever the requests and whichever of them fail. (Songs
    taken off the playlist and images replaced on a star leave their
    assets behind.) *)
Theorem session_keeps_assets `{Env} (seed : Seed) (db : DB.IDB) (r : nat)
    (es : list App.Event) (id : string) :
  is_Some (DB.assets db !! id) ->
  is_Some (DB.assets (App.idb (Part001.session seed db r es)) !! id) /\
  is_Some (DB.assets (App.idb (Part000.session seed db r es)) !! id).
Proof.
  intros Hid. split.
  - unfold Part001.session, Part001.run.
    apply run_keeps_asset; [apply export_001_inert|].
    rewrite init_001_idb. exact Hid.
  - unfold Part000.session, Part000.run.
    apply run_keeps_asset; [apply export_000_inert|].
    destruct (init_000_idb seed (App.mount seed db r)) as [-> | ->];
      [exact Hid|].
    rewrite saveGameState_assets. exact Hid.
Qed.

Lemma session_keeps_assets_witness :
  is_Some
    (DB.assets
       (App.idb
          (@Part001.session demo_env shipped_seed loaded_db 0
             [App.StarClick 2; App.RemoveTempImage 0; App.LaunchStar;
              App.PlaylistUpdate []]))
       !! "uuid-0").
Proof.
  destruct (@session_keeps_assets demo_env shipped_seed loaded_db 0%nat
              [App.StarClick 2; App.RemoveTempImage 0; App.LaunchStar;
               App.PlaylistUpdate []] "uuid-0") as [H1 _].
  - vm_compute. eexists. reflexivity.
  - exact H1.
Defined.

(** ** An upload across a song end *)

(** X22. The stored document and the live model, around an upload. Let
    an upload below capacity reach its asset write, which resolves, and
    let the database open and the document writes go through. Run
    alone, the upload is its two turns one after the other, and it
    leaves the stored document equal to the live stars, playlist and
    counter. If a song ends between the two turns, the second turn
    still appends to the playlist it captured and stores the stars and
    the counter it captured: the live counter is then one more than the
    captured one while the stored document carries the captured one, so
    the store is one playback behind the live model, and the next
    startup that restores it shows the captured counter. *)
Theorem handleMusicUpload_across_song_end `{Env} (w w1 : App.World)
    (file : File) (assetId : string) :
  Z.of_nat (length (App.playlist (App.app w)))
    < App.maxPlaylistSize (App.playbackCount (App.app w)) ->
  App.handleMusicUpload_await file w = (Resolved assetId, w1) ->
  idb_fails ReqOpen = false ->
  idb_fails ReqPutState = false ->
  let alone := App.handleMusicUpload_resume (App.app w) file assetId w1 in
  let across :=
    App.handleMusicUpload_resume (App.app w) file assetId
      (App.handleSongEnd w1) in
  App.handleMusicUpload [file] w = alone /\
  DB.state (App.idb alone) !! "current"
  = Some (DB.mkGameState (App.stars (App.app alone))
            (App.playlist (App.app alone))
            (App.playbackCount (App.app alone))) /\
  App.playbackCount (App.app across) = App.playbackCount (App.app w) + 1 /\
  App.playlist (App.app across) = App.playlist (App.app alone) /\
  App.stars (App.app across) = App.stars (App.app alone) /\
  DB.state (App.idb across) !! "current"
  = Some (DB.mkGameState (App.stars (App.app across))
            (App.playlist (App.app across))
            (App.playbackCount (App.app w))) /\
  (idb_fails ReqGetState = false ->
   (forall id, idb_fails (ReqGetAsset id) = false) ->
   (forall b, createObjectURL b <> "") ->
   forall (seed : Seed) (r : nat),
     App.playbackCount
       (App.app (Part001.init (App.mount seed (App.idb across) r)))
     = App.playbackCount (App.app w)).
Proof.
  intros Hroom Hawait Ho Hp. cbv zeta.
  unfold App.handleMusicUpload_await in Hawait.
  destruct (DB.saveAsset (file_blob file) (App.idb w)) as [r0 db1] eqn:Hsave.
  injection Hawait as -> <-.
  assert (Hacross :
    DB.state
      (App.idb
         (App.handleMusicUpload_resume (App.app w) file assetId
            (App.handleSongEnd (App.with_idb w db1)))) !! "current"
    = Some (DB.mkGameState (App.stars (App.app w))
              (App.playlist (App.app w) ++
               [Song.mk (generateId (App.rng w)) (file_name file)
                  (createObjectURL (file_blob file)) (Some assetId)])
              (App.playbackCount (App.app w)))).
  { unfold App.handleMusicUpload_resume, App.handleSongEnd, App.saveGame.
    cbn [App.idb App.with_idb App.with_app App.app App.rng].
    rewrite !saveGameState_ok by assumption.
    cbn [snd DB.state]. apply lookup_insert_eq. }
  split; [|split; [|split; [|split; [|split; [|split]]]]].
  - unfold App.handleMusicUpload.
    destruct (Z.geb_spec (Z.of_nat (length (App.playlist (App.app w))))
                (App.maxPlaylistSize (App.playbackCount (App.app w))));
      [lia|].
    rewrite Hsave. destruct w; reflexivity.
  - unfold App.handleMusicUpload_resume, App.saveGame.
    cbn [App.idb App.with_idb App.with_app App.app App.rng].
    rewrite saveGameState_ok by assumption.
    cbn [snd DB.state App.idb App.app App.with_idb].
    rewrite lookup_insert_eq. reflexivity.
  - reflexivity.
  - reflexivity.
  - reflexivity.
  - exact Hacross.
  - intros Hl Hg Hurl seed r.
    rewrite (init_loaded_001 (App.mount seed _ r) _ Ho Hl Hg Hurl Hacross).
    reflexivity.
Qed.

(** An upload of [demo_file] at counter 25 with six songs, and a song
    ending between its two turns: the live counter is 26, the stored
    one 25. *)
Lemma handleMusicUpload_across_song_end_witness :
  let across :=
    @App.handleMusicUpload_resume demo_env (App.app roomy_world) demo_file
      "uuid-0"
      (@App.handleSongEnd demo_env
         (App.with_idb roomy_world (DB.mkIDB {[ "uuid-0" := "bytes" ]} ∅ 1))) in
  App.playbackCount (App.app across) = 26 /\
  DB.playbackCount <$> DB.state (App.idb across) !! "current" = Some 25.
Proof.
  cbv zeta.
  destruct (@handleMusicUpload_across_song_end demo_env roomy_world
              (App.with_idb roomy_world (DB.mkIDB {[ "uuid-0" := "bytes" ]} ∅ 1))
              demo_file "uuid-0") as (_ & _ & Hlive & _ & _ & Hstored & _).
  - vm_compute. reflexivity.
  - reflexivity.
  - reflexivity.
  - reflexivity.
  - split; [exact Hlive|]. rewrite Hstored. reflexivity.
Defined.

(** ** The scene on a first run *)

Lemma generateRandomStars_ids `{Env} (r : nat) :
  map StarData.id (App.generateRandomStars r) = map Z.of_nat (seq 0 20).
Proof. unfold App.generateRandomStars. rewrite map_map. reflexivity. Qed.

Lemma run_ids `{Env} (export : App.World -> App.World) (es : list App.Event)
    (w : App.World) :
  (forall w0, App.app (export w0) = App.app w0 /\
              App.idb (export w0) = App.idb w0) ->
  map StarData.id (App.stars (App.app (App.run export es w)))
  = map StarData.id (App.stars (App.app w)).
Proof.
  intros Hexp. revert w. unfold App.run.
  induction es as [|e es IH]; intros w; [reflexivity|].
  simpl. rewrite IH.
  pose proof (step_identity export e w Hexp) as Hstep.
  apply (f_equal (map fst)) in Hstep. rewrite !map_map in Hstep. exact Hstep.
Qed.

(** X23. On a first run (no saved document) the scene keeps, through the
    startup and any sequence of requests and in either revision, the
    ids it was mounted with: the seed's ids when the seed has a star,
    and 0 to 19 otherwise. So the live list is never empty, and its ids
    are pairwise distinct whenever the seed's are. *)
Theorem first_run_scene `{Env} (seed : Seed) (db : DB.IDB) (r : nat)
    (es : list App.Event) :
  DB.state db !! "current" = None ->
  let live := App.stars (App.app (Part001.session seed db r es)) in
  let mounted :=
    match STATIC_STARS seed with
    | [] => map Z.of_nat (seq 0 20)
    | _ :: _ => map StarData.id (STATIC_STARS seed)
    end in
  map StarData.id live = mounted /\
  map StarData.id (App.stars (App.app (Part000.session seed db r es)))
  = mounted /\
  live <> [] /\
  (NoDup (map StarData.id (STATIC_STARS seed)) -> NoDup (map StarData.id live)).
Proof.
  intros Hnone. cbv zeta.
  assert (Hmount : map StarData.id (App.stars (App.initialState seed r))
                   = match STATIC_STARS seed with
                     | [] => map Z.of_nat (seq 0 20)
                     | _ :: _ => map StarData.id (STATIC_STARS seed)
                     end).
  { unfold App.initialState. cbn [App.stars].
    destruct (STATIC_STARS seed) as [|s0 l]; cbn [length Nat.ltb Nat.leb];
      [apply generateRandomStars_ids | reflexivity]. }
  assert (H1 : map StarData.id
                 (App.stars (App.app (Part001.session seed db r es)))
               = match STATIC_STARS seed with
                 | [] => map Z.of_nat (seq 0 20)
                 | _ :: _ => map StarData.id (STATIC_STARS seed)
                 end).
  { unfold Part001.session, Part001.run.
    rewrite run_ids by apply export_001_inert.
    destruct (init_001_first_run (App.mount seed db r) Hnone) as [_ ->].
    exact Hmount. }
  split; [exact H1|]. split; [|split].
  - unfold Part000.session, Part000.run.
    rewrite run_ids by apply export_000_inert.
    rewrite (init_000_first_run_app seed (App.mount seed db r) Hnone).
    exact Hmount.
  - intros Hnil. rewrite Hnil in H1.
    destruct (STATIC_STARS seed); discriminate.
  - intros Hnd. rewrite H1.
    destruct (STATIC_STARS seed) as [|s0 l]; [|exact Hnd].
    change (map Z.of_nat (seq 0 20)) with (Z.of_nat <$> seq 0 20).
    apply NoDup_fmap_2; [intros x y; apply Nat2Z.inj | apply NoDup_seq].
Qed.

Lemma first_run_scene_witness :
  map StarData.id
    (App.stars
       (App.app
          (@Part001.session demo_env shipped_seed DB.empty 0
             [App.StarClick 3; App.ImageSelect (Some [photo "p"]);
              App.LaunchStar; App.StarView 3])))
  = map Z.of_nat (seq 0 20).
Proof.
  destruct (@first_run_scene demo_env shipped_seed DB.empty 0%nat
              [App.StarClick 3; App.ImageSelect (Some [photo "p"]);
               App.LaunchStar; App.StarView 3]) as (Hids & _);
    [reflexivity|].
  exact Hids.
Defined.

(** ** Alignment at every persisted state *)













